(** * AI Lecturer: the lecture processing pipeline

    A shallow embedding of the server-side processing code of the
    AI Lecturer application:

    - [services/aiService.js]     script generation, cleaning, fallback, validation
    - [services/ttsService.js]    text preparation for speech, synthesis, batch synthesis
    - [services/fileProcessor.js] slide extraction from PDF / PPTX
    - [routes/upload.js]          the upload route that drives one pipeline run
    - [models/Lecture.js]         the persisted lecture document

    JavaScript strings are sequences of UTF-16 code units; they are modelled
    as lists of code units so that [length], [substring] and the regular
    expression classes [\s] and [\w] mean what they mean in the source. *)

From Stdlib Require Import List ZArith NArith Lia Bool String Ascii.
Import ListNotations.

Set Implicit Arguments.

(* ===================================================================== *)
(** ** JavaScript strings *)
(* ===================================================================== *)

Module JsString.

Local Open Scope N_scope.

(** A UTF-16 code unit. *)
Definition codeunit := N.

Definition jsstring := list codeunit.

(** An ASCII literal of the source, as code units. *)
Definition lit (s : string) : jsstring :=
  map N_of_ascii (list_ascii_of_string s).

Definition in_range (lo hi c : codeunit) : bool := (lo <=? c) && (c <=? hi).

(** The class [\s] of ECMAScript: WhiteSpace and LineTerminator.
    [String.prototype.trim] strips exactly the same set. *)
Definition is_space (c : codeunit) : bool :=
  in_range 9 13 c || (c =? 32) || (c =? 160) || (c =? 5760)
  || in_range 8192 8202 c || (c =? 8232) || (c =? 8233) || (c =? 8239)
  || (c =? 8287) || (c =? 12288) || (c =? 65279).

(** The class [\w] without the [u] flag: [A-Za-z0-9_]. *)
Definition is_word (c : codeunit) : bool :=
  in_range 48 57 c || in_range 65 90 c || (c =? 95) || in_range 97 122 c.

(** [\n] *)
Definition is_newline (c : codeunit) : bool := c =? 10.

(** The class of the two quotation marks, double (34) and single (39). *)
Definition is_quote (c : codeunit) : bool := (c =? 34) || (c =? 39).

Definition SPACE : codeunit := 32.

(** [s.replace(/X+/g, r)] for a character class [X] and a one-character
    replacement [r]: every maximal run of characters of the class becomes
    one [r].  [in_run] tells that the previous character was of the class. *)
Fixpoint replace_runs_from (p : codeunit -> bool) (r : codeunit)
         (in_run : bool) (s : jsstring) : jsstring :=
  match s with
  | [] => []
  | c :: s' =>
      if p c
      then if in_run
           then replace_runs_from p r true s'
           else r :: replace_runs_from p r true s'
      else c :: replace_runs_from p r false s'
  end.

Definition replace_runs (p : codeunit -> bool) (r : codeunit) (s : jsstring) :=
  replace_runs_from p r false s.

(** [s.replace(/[^X]/g, '')] : only the characters of the class stay. *)
Definition remove_outside (p : codeunit -> bool) (s : jsstring) : jsstring :=
  filter p s.

Fixpoint trimStart (s : jsstring) : jsstring :=
  match s with
  | [] => []
  | c :: s' => if is_space c then trimStart s' else s
  end.

Fixpoint trimEnd (s : jsstring) : jsstring :=
  match s with
  | [] => []
  | c :: s' =>
      match trimEnd s' with
      | [] => if is_space c then [] else [c]
      | t => c :: t
      end
  end.

(** [s.trim()] *)
Definition trim (s : jsstring) : jsstring := trimEnd (trimStart s).

(** [s.substring(0, n)] for a constant [n >= 0]. *)
Definition substring0 (n : nat) (s : jsstring) : jsstring := firstn n s.

(** [s.length] *)
Definition jslength (s : jsstring) : Z := Z.of_nat (List.length s).

Definition starts_with (p : codeunit -> bool) (s : jsstring) : bool :=
  match s with
  | [] => false
  | c :: _ => p c
  end.

Fixpoint ends_with (p : codeunit -> bool) (s : jsstring) : bool :=
  match s with
  | [] => false
  | c :: s' =>
      match s' with
      | [] => p c
      | _ :: _ => ends_with p s'
      end
  end.

(** Equality of strings ([===] on two strings). *)
Fixpoint jseqb (a b : jsstring) : bool :=
  match a, b with
  | [], [] => true
  | x :: a', y :: b' => (x =? y) && jseqb a' b'
  | _, _ => false
  end.

(** [s.replace(/^[Q]/, '')] for a class [Q]: a first character of the class
    is removed. *)
Definition strip_leading (p : codeunit -> bool) (s : jsstring) : jsstring :=
  match s with
  | [] => []
  | c :: s' => if p c then s' else s
  end.

(** [s.replace(/[Q]$/, '')]: a last character of the class is removed. *)
Fixpoint strip_trailing (p : codeunit -> bool) (s : jsstring) : jsstring :=
  match s with
  | [] => []
  | c :: s' =>
      match s' with
      | [] => if p c then [] else [c]
      | _ :: _ => c :: strip_trailing p s'
      end
  end.

(** [s.replace(/^[Q]|[Q]$/g, '')].  The scan goes left to right: the first
    alternative can only match at index 0, the second only at the last
    index, and a character removed by the first is not seen again by the
    second; this is the trailing strip applied to the result of the leading
    strip. *)
Definition strip_both_ends (p : codeunit -> bool) (s : jsstring) : jsstring :=
  strip_trailing p (strip_leading p s).

(** Case folding of the ASCII letters.  A pattern with the [i] flag and
    without the [u] flag compares characters after [toUpperCase], and never
    lets a character above 127 fold onto an ASCII one, so against an ASCII
    pattern only ASCII letters are folded. *)
Definition ascii_upper (c : codeunit) : codeunit :=
  if in_range 97 122 c then c - 32 else c.

(** [/^pat/i.test(s)] for a literal ASCII pattern. *)
Fixpoint test_prefix_ci (pat s : jsstring) : bool :=
  match pat, s with
  | [], _ => true
  | _ :: _, [] => false
  | a :: pat', c :: s' => (ascii_upper a =? ascii_upper c) && test_prefix_ci pat' s'
  end.

End JsString.

(* ===================================================================== *)
(** ** Property lookup on an object literal *)
(* ===================================================================== *)

Module JsObject.

Import JsString.

(** The values a property read [obj[key]] on a literal of strings can give:
    an own string, [undefined], or a member inherited from
    [Object.prototype] (its methods, or the prototype itself through the
    [__proto__] accessor). *)
Inductive value : Type :=
| Undefined
| Str (s : jsstring)
| NativeFunction (name : jsstring)
| ObjectPrototype.

Definition object := list (jsstring * jsstring).

Fixpoint own (o : object) (key : jsstring) : option jsstring :=
  match o with
  | [] => None
  | (k, v) :: o' => if jseqb k key then Some v else own o' key
  end.

(** The method names of [Object.prototype]. *)
Definition prototype_methods : list jsstring :=
  map lit
    [ "__defineGetter__"; "__defineSetter__"; "hasOwnProperty";
      "__lookupGetter__"; "__lookupSetter__"; "isPrototypeOf";
      "propertyIsEnumerable"; "toString"; "valueOf"; "toLocaleString" ]%string.

Definition inherited (key : jsstring) : value :=
  if jseqb key (lit "constructor") then NativeFunction (lit "Object")
  else if jseqb key (lit "__proto__") then ObjectPrototype
  else if existsb (jseqb key) prototype_methods then NativeFunction key
  else Undefined.

(** [o[key]] *)
Definition get (o : object) (key : jsstring) : value :=
  match own o key with
  | Some v => Str v
  | None => inherited key
  end.

(** ToBoolean *)
Definition truthy (v : value) : bool :=
  match v with
  | Undefined => false
  | Str [] => false
  | Str (_ :: _) => true
  | NativeFunction _ => true
  | ObjectPrototype => true
  end.

(** [a || b] *)
Definition or_else (a b : value) : value := if truthy a then a else b.

(** ToString, as a template literal applies it.  A built-in function prints
    as its native-code source text, the prototype object as
    [[object Object]]. *)
Definition to_string (v : value) : jsstring :=
  match v with
  | Undefined => lit "undefined"
  | Str s => s
  | NativeFunction name => lit "function " ++ name ++ lit "() { [native code] }"
  | ObjectPrototype => lit "[object Object]"
  end.

End JsObject.

(* ===================================================================== *)
(** ** services/aiService.js *)
(* ===================================================================== *)

Module AiService.

Import JsString JsObject.

(** What the awaited chat completion call, followed by the read of
    [completion.choices[0].message.content], gives inside the [try] block:
    either a content string, or an exception (provider or network error, a
    missing choice, or a null content on which [replace] then throws). *)
Inductive completion : Type :=
| Content (generatedContent : jsstring)
| Threw.

Definition cleanGeneratedContent (content : jsstring) : jsstring :=
  trim
    (replace_runs is_space SPACE
       (replace_runs is_newline SPACE
          (strip_both_ends is_quote content))).

Definition languageGreetings : object :=
  [ (lit "english", lit "Hello everyone,");
    (lit "russian",
      [1047; 1076; 1088; 1072; 1074; 1089; 1090; 1074; 1091; 1081; 1090; 1077; 44]%N);
    (lit "spanish", lit "Hola a todos,");
    (lit "french",
      [66; 111; 110; 106; 111; 117; 114; 32; 224; 32; 116; 111; 117; 115; 44]%N);
    (lit "german", lit "Hallo zusammen,") ].

Definition fallback_middle : jsstring :=
  lit " today we will be discussing the following topic: ".

Definition fallback_tail : jsstring :=
  lit ". This is an important subject that we need to understand thoroughly. Let me explain the key points and provide some examples to help clarify the concepts.".

Definition greeting_of (language : jsstring) : value :=
  or_else (get languageGreetings language) (get languageGreetings (lit "english")).

Definition generateFallbackContent (slideContent language : jsstring) : jsstring :=
  to_string (greeting_of language)
    ++ fallback_middle ++ substring0 200 slideContent ++ fallback_tail.

Definition problematicPatterns : list jsstring :=
  map lit [ "I'm sorry"; "I cannot"; "I don't have access"; "As an AI" ]%string.

Definition validateGeneratedContent (content : jsstring) : bool :=
  match content with
  | [] => false
  | _ :: _ =>
      if (jslength content <? 50)%Z then false
      else if (2000 <? jslength content)%Z then false
      else negb (existsb (fun pattern => test_prefix_ci pattern content)
                         problematicPatterns)
  end.

(** [generateLectureContent]: the prompt only shapes the request; the
    returned script is the cleaned content, or the fallback when anything
    inside the [try] block threw.  [validateGeneratedContent] is not
    called. *)
Definition generateLectureContent
           (slideContent language : jsstring) (c : completion) : jsstring :=
  match c with
  | Content generatedContent => cleanGeneratedContent generatedContent
  | Threw => generateFallbackContent slideContent language
  end.

(** An element of the array [generateLectureContentBatch] returns. *)
Record script_item : Type := {
  si_slideNumber : Z;
  si_script : jsstring;
  si_content : jsstring
}.

(** [generateLectureContentBatch] from index [i] on; [content] reads
    [slide.content], and the completion of the [i]-th call is [chat i].  The
    context sentence added to the prompt for [i > 0] only shapes the request,
    and the delay between calls has no effect on the result.  Nothing inside
    the outer [try] block throws, [generateLectureContent] catching all its
    exceptions, so the array is always returned. *)
Fixpoint generateLectureContentBatch_from {T : Type} (content : T -> jsstring)
         (chat : nat -> completion) (i : nat)
         (slides : list T) (language : jsstring) : list script_item :=
  match slides with
  | [] => []
  | slide :: rest =>
      {| si_slideNumber := Z.of_nat i + 1;
         si_script := generateLectureContent (content slide) language (chat i);
         si_content := content slide |}
      :: generateLectureContentBatch_from content chat (S i) rest language
  end.

Definition generateLectureContentBatch {T : Type} (content : T -> jsstring)
           (chat : nat -> completion)
           (slides : list T) (language : jsstring) : list script_item :=
  generateLectureContentBatch_from content chat 0 slides language.

End AiService.

(* ===================================================================== *)
(** ** Exceptions *)
(* ===================================================================== *)

Module Exc.

Import JsString.

(** The outcome of an awaited call: a value, or a thrown [Error] with its
    [message]. *)
Inductive result (A : Type) : Type :=
| Ok (a : A)
| Throw (message : jsstring).

Arguments Ok {A} a.
Arguments Throw {A} message.

End Exc.

(* ===================================================================== *)
(** ** services/ttsService.js *)
(* ===================================================================== *)

Module TtsService.

Import JsString JsObject Exc.
Local Open Scope N_scope.

Definition LANGUAGE_VOICES : object :=
  [ (lit "english", lit "alloy");
    (lit "russian", lit "echo");
    (lit "spanish", lit "onyx");
    (lit "french", lit "nova");
    (lit "german", lit "shimmer") ].

(** The punctuation kept by the class [[^\w\s.,!?-]]: . , ! ? - *)
Definition is_tts_punct (c : codeunit) : bool :=
  (c =? 46) || (c =? 44) || (c =? 33) || (c =? 63) || (c =? 45).

(** The characters outside the negated class [[^\w\s.,!?-]]. *)
Definition is_tts_safe (c : codeunit) : bool :=
  is_word c || is_space c || is_tts_punct c.

(** The characters matched by [/[а-яё]/gi] (the class is U+0430..U+044F and
    U+0451): with the [i] flag a character matches when its upper-case form
    is one of U+0410..U+042F or U+0401, which is so for the two cases of the
    basic Cyrillic letters and for the small letter variants
    U+1C80..U+1C86. *)
Definition matches_cyrillic_ci (c : codeunit) : bool :=
  in_range 1040 1103 c || (c =? 1025) || (c =? 1105) || in_range 7296 7302 c.

(** [char.toLowerCase()] on a matched character. *)
Definition cyrillic_toLowerCase (c : codeunit) : codeunit :=
  if in_range 1040 1071 c then c + 32
  else if c =? 1025 then 1105
  else c.

Definition russian_formatting (s : jsstring) : jsstring :=
  map (fun c => if matches_cyrillic_ci c then cyrillic_toLowerCase c else c) s.

(** [replace(/ß/g, 'ss')] *)
Definition german_formatting (s : jsstring) : jsstring :=
  flat_map (fun c => if c =? 223 then [115; 115] else [c]) s.

(** The value of [cleanedText] before the [switch]. *)
Definition normalize_for_tts (text : jsstring) : jsstring :=
  trim (remove_outside is_tts_safe (replace_runs is_space SPACE text)).

Definition language_formatting (language : jsstring) (s : jsstring) : jsstring :=
  if jseqb language (lit "russian") then russian_formatting s
  else if jseqb language (lit "german") then german_formatting s
  else s.

Definition limit_length (s : jsstring) : jsstring :=
  if (4000 <? jslength s)%Z then substring0 4000 s ++ lit "..." else s.

Definition prepareTextForTTS (text language : jsstring) : jsstring :=
  limit_length (language_formatting language (normalize_for_tts text)).

(** [LANGUAGE_VOICES[language] || 'alloy'] *)
Definition voice_of (language : jsstring) : value :=
  or_else (get LANGUAGE_VOICES language) (Str (lit "alloy")).

(** The speech provider together with the upload of the audio bytes: for
    the call made with a voice and an input text, the location of the stored
    audio file, or an exception. *)
Definition synthesizer := value -> jsstring -> result jsstring.

(** [generateSpeech]: every exception of the [try] block is replaced by a
    fresh [Error('Failed to generate speech')]. *)
Definition generateSpeech (tts : synthesizer) (text language : jsstring)
  : result jsstring :=
  let cleanedText := prepareTextForTTS text language in
  let voice := voice_of language in
  match tts voice cleanedText with
  | Ok location => Ok location
  | Throw _ => Throw (lit "Failed to generate speech")
  end.

(** [errors.length] *)
Definition jslength_list {A} (l : list A) : Z := Z.of_nat (List.length l).

(** An element of the argument of [generateSpeechBatch]. *)
Record text_item : Type := {
  ti_slideNumber : Z;
  ti_content : jsstring
}.

(** An element of the array [generateSpeechBatch] returns; [audioUrl] is
    [null] and [error] is set on the items whose synthesis threw. *)
Record batch_item : Type := {
  bi_slideNumber : Z;
  bi_audioUrl : option jsstring;
  bi_content : jsstring;
  bi_error : option jsstring
}.

(** [generateSpeechBatch]; the synthesizer of the [i]-th call is [tts i].
    The delays between calls have no effect on the result. *)
Fixpoint generateSpeechBatch_from (tts : nat -> synthesizer) (i : nat)
         (texts : list text_item) (language : jsstring) : list batch_item :=
  match texts with
  | [] => []
  | text :: rest =>
      (match generateSpeech (tts i) (ti_content text) language with
       | Ok audioUrl =>
           {| bi_slideNumber := ti_slideNumber text;
              bi_audioUrl := Some audioUrl;
              bi_content := ti_content text;
              bi_error := None |}
       | Throw message =>
           {| bi_slideNumber := ti_slideNumber text;
              bi_audioUrl := None;
              bi_content := ti_content text;
              bi_error := Some message |}
       end) :: generateSpeechBatch_from tts (S i) rest language
  end.

Definition generateSpeechBatch (tts : nat -> synthesizer)
           (texts : list text_item) (language : jsstring) : list batch_item :=
  generateSpeechBatch_from tts 0 texts language.

(** The object [validateTTSParameters] returns. *)
Record tts_validation : Type := {
  isValid : bool;
  errors : list jsstring
}.

Definition validateTTSParameters (text language : jsstring) : tts_validation :=
  let errors1 :=
    match text with
    | [] => [lit "Text cannot be empty"]
    | _ :: _ =>
        if (jslength (trim text) =? 0)%Z then [lit "Text cannot be empty"] else []
    end in
  let errors2 :=
    if (4000 <? jslength text)%Z
    then [lit "Text is too long for TTS (max 4000 characters)"] else [] in
  let errors3 :=
    if negb (truthy (get LANGUAGE_VOICES language))
    then [lit "Unsupported language: " ++ language] else [] in
  let errors := errors1 ++ errors2 ++ errors3 in
  {| isValid := (jslength_list errors =? 0)%Z; errors := errors |}.

End TtsService.

(* ===================================================================== *)
(** ** services/fileProcessor.js *)
(* ===================================================================== *)

Module FileProcessor.

Import JsString Exc.
Local Open Scope N_scope.

(** An element of the arrays [processPPTX] and [processPDF] return. *)
Record extracted : Type := {
  ex_content : jsstring;
  ex_imageUrl : jsstring
}.

(** [generateSlideImage(content, slideNumber)]: the location of the uploaded
    picture, or the placeholder address when rendering or upload threw; it
    never throws. *)
Definition renderer := jsstring -> Z -> jsstring.

Definition cons_to_head (c : codeunit) (parts : list jsstring) : list jsstring :=
  match parts with
  | [] => [[c]]
  | h :: t => (c :: h) :: t
  end.

(** [text.split('\n\n')] *)
Fixpoint split_blank_line (text : jsstring) : list jsstring :=
  match text with
  | [] => [[]]
  | c :: text' =>
      match text' with
      | [] => [[c]]
      | d :: text'' =>
          if (c =? 10) && (d =? 10)
          then [] :: split_blank_line text''
          else cons_to_head c (split_blank_line text')
      end
  end.

(** [text.split('\n\n').filter(page => page.trim().length > 0)] *)
Definition pages_of (text : jsstring) : list jsstring :=
  filter (fun page => (0 <? jslength (trim page))%Z) (split_blank_line text).

(** The loop of [processPDF]; [i] is the index in [pages]. *)
Fixpoint slides_of_pages (render : renderer) (i : Z) (pages : list jsstring)
  : list extracted :=
  match pages with
  | [] => []
  | page :: rest =>
      let pageContent := trim page in
      if (10 <? jslength pageContent)%Z
      then {| ex_content := pageContent;
              ex_imageUrl := render (substring0 100 pageContent) (i + 1)%Z |}
           :: slides_of_pages render (i + 1)%Z rest
      else slides_of_pages render (i + 1)%Z rest
  end.

(** [processPDF]; [parsed] is the outcome of [pdfParse(buffer)], the text of
    the document or an exception, which is replaced by
    [Error('Failed to process PDF file')]. *)
Definition processPDF (render : renderer) (parsed : result jsstring)
  : result (list extracted) :=
  match parsed with
  | Ok text => Ok (slides_of_pages render 0%Z (pages_of text))
  | Throw _ => Throw (lit "Failed to process PDF file")
  end.

(** [processPPTX]: the buffer is not read; one fixed slide is returned. *)
Definition processPPTX (render : renderer) : result (list extracted) :=
  Ok [ {| ex_content := lit "Slide content extracted from PPTX";
          ex_imageUrl := render (lit "Slide 1") 1%Z |} ].

(** [extractTextContent] *)
Definition extractTextContent (slideContent : jsstring) : jsstring :=
  substring0 1000 (trim (replace_runs is_space SPACE slideContent)).

End FileProcessor.

(* ===================================================================== *)
(** ** models/Lecture.js *)
(* ===================================================================== *)

Module Lecture.

Import JsString.

(** The [enum] of the [status] path. *)
Inductive lecture_status : Type :=
| uploading | processing | generating | ready | error.

(** [slideSchema], with its defaults filled in. *)
Record slide : Type := {
  slideNumber : Z;
  imageUrl : jsstring;
  content : jsstring;
  aiScript : jsstring;
  audioUrl : jsstring;
  duration : Z
}.

(** [lectureSchema].  The nested paths of [originalFile] and [metadata] are
    flattened; dates are milliseconds since the epoch.  The paths [aiModel]
    and [ttsModel] of [metadata], which no code writes, are left out. *)
Record lecture : Type := {
  name : jsstring;
  owner : jsstring;
  originalFile_fileName : jsstring;
  originalFile_fileUrl : jsstring;
  originalFile_fileType : jsstring;
  originalFile_fileSize : Z;
  language : jsstring;
  slides : list slide;
  status : lecture_status;
  processingProgress : Z;
  aiPrompt : jsstring;
  totalDuration : Z;
  metadata_slideCount : Z;
  metadata_processingTime : Z;
  errorMessage : jsstring;
  isPublic : bool;
  tags : list jsstring;
  createdAt : Z;
  updatedAt : Z
}.

(** One [path: value] pair of the update document given to
    [findByIdAndUpdate]. *)
Inductive assignment : Type :=
| Set_originalFile_fileName (v : jsstring)
| Set_originalFile_fileType (v : jsstring)
| Set_originalFile_fileSize (v : Z)
| Set_originalFile_fileUrl (v : jsstring)
| Set_slides (v : list slide)
| Set_status (v : lecture_status)
| Set_processingProgress (v : Z)
| Set_totalDuration (v : Z)
| Set_metadata_slideCount (v : Z)
| Set_metadata_processingTime (v : Z)
| Set_errorMessage (v : jsstring)
| Set_updatedAt (v : Z).

Definition update := list assignment.

Definition assign (d : lecture) (a : assignment) : lecture :=
  let mk fn fu ft fs sl st pp td sc pt em ua :=
    {| name := name d; owner := owner d;
       originalFile_fileName := fn; originalFile_fileUrl := fu;
       originalFile_fileType := ft; originalFile_fileSize := fs;
       language := language d; slides := sl; status := st;
       processingProgress := pp; aiPrompt := aiPrompt d;
       totalDuration := td; metadata_slideCount := sc;
       metadata_processingTime := pt; errorMessage := em;
       isPublic := isPublic d; tags := tags d;
       createdAt := createdAt d; updatedAt := ua |} in
  let fn := originalFile_fileName d in
  let fu := originalFile_fileUrl d in
  let ft := originalFile_fileType d in
  let fs := originalFile_fileSize d in
  let sl := slides d in
  let st := status d in
  let pp := processingProgress d in
  let td := totalDuration d in
  let sc := metadata_slideCount d in
  let pt := metadata_processingTime d in
  let em := errorMessage d in
  let ua := updatedAt d in
  match a with
  | Set_originalFile_fileName v => mk v fu ft fs sl st pp td sc pt em ua
  | Set_originalFile_fileType v => mk fn fu v fs sl st pp td sc pt em ua
  | Set_originalFile_fileSize v => mk fn fu ft v sl st pp td sc pt em ua
  | Set_originalFile_fileUrl v => mk fn v ft fs sl st pp td sc pt em ua
  | Set_slides v => mk fn fu ft fs v st pp td sc pt em ua
  | Set_status v => mk fn fu ft fs sl v pp td sc pt em ua
  | Set_processingProgress v => mk fn fu ft fs sl st v td sc pt em ua
  | Set_totalDuration v => mk fn fu ft fs sl st pp v sc pt em ua
  | Set_metadata_slideCount v => mk fn fu ft fs sl st pp td v pt em ua
  | Set_metadata_processingTime v => mk fn fu ft fs sl st pp td sc v em ua
  | Set_errorMessage v => mk fn fu ft fs sl st pp td sc pt v ua
  | Set_updatedAt v => mk fn fu ft fs sl st pp td sc pt em v
  end.

(** The schema has [timestamps: true]: the model's [findByIdAndUpdate]
    adds the path [updatedAt], with the time of the call, to every update
    document it is given before the store applies it. *)
Definition with_timestamp (now : Z) (u : update) : update :=
  u ++ [Set_updatedAt now].

(** The store applying an update document to the document with the given
    id: the paths the document names are set, every other path stays.  The
    call [Lecture.findByIdAndUpdate(id, u)] of the route at time [now] is
    [findByIdAndUpdate d (with_timestamp now u)]. *)
Definition findByIdAndUpdate (d : lecture) (u : update) : lecture :=
  fold_left assign u d.

(** The document after a sequence of updates. *)
Definition persisted (d : lecture) (us : list update) : lecture :=
  fold_left findByIdAndUpdate us d.

(** The documents a reader can see, one after each update. *)
Fixpoint history (d : lecture) (us : list update) : list lecture :=
  match us with
  | [] => []
  | u :: us' => findByIdAndUpdate d u :: history (findByIdAndUpdate d u) us'
  end.

End Lecture.

(* ===================================================================== *)
(** ** routes/upload.js : POST /lecture/:lectureId *)
(* ===================================================================== *)

Module Upload.

Import JsString Exc.

(** What the handler reads from the request once the file is there, the
    lecture is found and its owner is the caller. [fileType] is the value of
    [req.file.originalname.split('.').pop().toLowerCase()]. *)
Record request : Type := {
  originalname : jsstring;
  size : Z;
  fileType : jsstring;
  body_language : jsstring;
  body_aiPrompt : jsstring
}.

(** The outcomes of the calls the handler makes outside this process during
    one run. *)
Record world : Type := {
  s3_upload : result jsstring;             (* [s3.upload(..).promise()]: Location *)
  pdf_parse : result jsstring;             (* [pdfParse(buffer)]: data.text *)
  render : FileProcessor.renderer;         (* [generateSlideImage] *)
  chat : nat -> AiService.completion;      (* the completion for slide index i *)
  speech : nat -> TtsService.synthesizer;  (* the synthesis for slide index i *)
  elapsed : Z;                             (* [Date.now() - lecture.createdAt] *)
  now : nat -> Z                           (* the time of the k-th update of the run *)
}.

(** The handler's computations: they may throw, and they append the update
    documents the store receives, each with its time stamp; the updates sent
    before an exception stay sent. *)
Definition M (A : Type) : Type :=
  list Lecture.update -> result A * list Lecture.update.

Definition ret {A} (a : A) : M A := fun tr => (Ok a, tr).

Definition bind {A B} (m : M A) (k : A -> M B) : M B :=
  fun tr =>
    match m tr with
    | (Ok a, tr') => k a tr'
    | (Throw e, tr') => (Throw e, tr')
    end.

Definition await {A} (r : result A) : M A := fun tr => (r, tr).

(** [await Lecture.findByIdAndUpdate(lectureId, u)]; [clock k] is the time
    of the [k]-th update of the run. *)
Definition send (clock : nat -> Z) (u : Lecture.update) : M unit :=
  fun tr => (Ok tt, tr ++ [Lecture.with_timestamp (clock (List.length tr)) u]).

Definition try_catch {A} (m : M A) (handler : jsstring -> M A) : M A :=
  fun tr =>
    match m tr with
    | (Ok a, tr') => (Ok a, tr')
    | (Throw e, tr') => handler e tr'
    end.

Declare Scope route_scope.
Delimit Scope route_scope with route.
Notation "x <- m ;; k" := (bind m (fun x => k))
  (at level 61, m at next level, right associativity) : route_scope.
Notation "m ;; k" := (bind m (fun _ => k))
  (at level 61, right associativity) : route_scope.
Local Open Scope route_scope.
Local Open Scope Z_scope.

(** [Math.round(a / b)] for integers [a] and [b > 0]: the nearest integer,
    a half going up. *)
Definition round_ratio (a b : Z) : Z := (2 * a + b) / (2 * b).

(** [Math.round(40 + ((i + 1) / slides.length) * 40)], computed on the exact
    quotient.  The double arithmetic of the source gives the same integer:
    the exact value is a multiple of [1 / (2 n)] away from any half-integer
    unless it is one, far more than the rounding error of three operations
    for any array length, and a half-integer below 128 is a double that the
    last addition returns exactly. *)
Definition progress_after (i : nat) (n : Z) : Z :=
  round_ratio (40 * n + 40 * (Z.of_nat i + 1)) n.

(** The element of [slides.map(..)] in the first slides update, with the
    schema defaults of the three paths the route leaves out. *)
Definition skeleton (index : nat) (s : FileProcessor.extracted) : Lecture.slide :=
  {| Lecture.slideNumber := Z.of_nat index + 1;
     Lecture.imageUrl := FileProcessor.ex_imageUrl s;
     Lecture.content := FileProcessor.ex_content s;
     Lecture.aiScript := [];
     Lecture.audioUrl := [];
     Lecture.duration := 0 |}.

Fixpoint skeletons_from (index : nat) (slides : list FileProcessor.extracted)
  : list Lecture.slide :=
  match slides with
  | [] => []
  | s :: rest => skeleton index s :: skeletons_from (S index) rest
  end.

(** The body of the [for] loop for the slides from index [i] on; [n] is
    [slides.length]. *)
Fixpoint process_slides (w : world) (language : jsstring) (n : Z) (i : nat)
         (todo : list FileProcessor.extracted)
         (processedSlides : list Lecture.slide) : M (list Lecture.slide) :=
  match todo with
  | [] => ret processedSlides
  | slide :: rest =>
      let aiScript :=
        AiService.generateLectureContent
          (FileProcessor.ex_content slide) language (chat w i) in
      audioUrl <- await (TtsService.generateSpeech (speech w i) aiScript language) ;;
      let processedSlides' :=
        processedSlides ++
          [ {| Lecture.slideNumber := Z.of_nat i + 1;
               Lecture.imageUrl := FileProcessor.ex_imageUrl slide;
               Lecture.content := FileProcessor.ex_content slide;
               Lecture.aiScript := aiScript;
               Lecture.audioUrl := audioUrl;
               Lecture.duration := 0 |} ] in
      send (now w) [ Lecture.Set_processingProgress (progress_after i n) ] ;;
      process_slides w language n (S i) rest processedSlides'
  end.

(** [let slides = []; if (fileType === 'pptx') .. else if (fileType === 'pdf') ..] *)
Definition extract (w : world) (req : request)
  : result (list FileProcessor.extracted) :=
  if jseqb (fileType req) (lit "pptx") then FileProcessor.processPPTX (render w)
  else if jseqb (fileType req) (lit "pdf")
       then FileProcessor.processPDF (render w) (pdf_parse w)
       else Ok [].

(** [processedSlides.reduce((sum, slide) => sum + slide.duration, 0)] *)
Definition sum_durations (processedSlides : list Lecture.slide) : Z :=
  fold_left (fun sum slide => sum + Lecture.duration slide) processedSlides 0.

(** The [try] block, from the first update on. *)
Definition try_block (w : world) (req : request) : M (list Lecture.slide) :=
  send (now w)
       [ Lecture.Set_originalFile_fileName (originalname req);
         Lecture.Set_originalFile_fileType (fileType req);
         Lecture.Set_originalFile_fileSize (size req);
         Lecture.Set_status Lecture.processing;
         Lecture.Set_processingProgress 10 ] ;;
  s3Result <- await (s3_upload w) ;;
  send (now w)
       [ Lecture.Set_originalFile_fileUrl s3Result;
         Lecture.Set_processingProgress 20 ] ;;
  slides <- await (extract w req) ;;
  send (now w)
       [ Lecture.Set_slides (skeletons_from 0 slides);
         Lecture.Set_processingProgress 40 ] ;;
  processedSlides <-
    process_slides w (body_language req) (Z.of_nat (List.length slides)) 0 slides [] ;;
  let totalDuration := sum_durations processedSlides in
  send (now w)
       [ Lecture.Set_slides processedSlides;
         Lecture.Set_totalDuration totalDuration;
         Lecture.Set_status Lecture.ready;
         Lecture.Set_processingProgress 100;
         Lecture.Set_metadata_slideCount (Z.of_nat (List.length processedSlides));
         Lecture.Set_metadata_processingTime (elapsed w) ] ;;
  ret processedSlides.

(** The update of the [catch] block. *)
Definition error_update (message : jsstring) : Lecture.update :=
  [ Lecture.Set_status Lecture.error; Lecture.Set_errorMessage message ].

(** The response: the processed slides, or status 500 with the message. *)
Definition handler (w : world) (req : request) : M (list Lecture.slide) :=
  try_catch (try_block w req)
            (fun message =>
               send (now w) (error_update message) ;; await (Throw message)).

(** One pipeline run: the response and the updates sent, in order. *)
Definition run (w : world) (req : request)
  : result (list Lecture.slide) * list Lecture.update :=
  handler w req [].

Definition response (w : world) (req : request) : result (list Lecture.slide) :=
  fst (run w req).

Definition updates (w : world) (req : request) : list Lecture.update :=
  snd (run w req).

(** The lecture document when the run is over.  The store is taken to
    accept every update; [estimateAudioDuration] of the speech service is
    called nowhere in the run. *)
Definition final (d : Lecture.lecture) (w : world) (req : request) : Lecture.lecture :=
  Lecture.persisted d (updates w req).

(** *** DELETE /lecture/:lectureId *)

(** [s.split(sep)] for a one-character separator. *)
Fixpoint split_on (sep : codeunit) (s : jsstring) : list jsstring :=
  match s with
  | [] => [[]]
  | c :: s' =>
      if (c =? sep)%N
      then [] :: split_on sep s'
      else FileProcessor.cons_to_head c (split_on sep s')
  end.

(** [parts.slice(-2)] *)
Definition slice_last_two {A} (parts : list A) : list A :=
  skipn (List.length parts - 2) parts.

(** [parts.join(sep)] *)
Fixpoint join_with (sep : codeunit) (parts : list jsstring) : jsstring :=
  match parts with
  | [] => []
  | [part] => part
  | part :: rest => part ++ sep :: join_with sep rest
  end.

Definition SLASH : codeunit := 47%N.

(** The [Key] of the upload: [`lectures/${lectureId}/${fileName}`]. *)
Definition upload_key (lectureId fileName : jsstring) : jsstring :=
  lit "lectures/" ++ lectureId ++ SLASH :: fileName.

(** The [Key] the delete route computes from the stored address:
    [`lectures/${fileUrl.split('/').slice(-2).join('/')}`]. *)
Definition delete_key (fileUrl : jsstring) : jsstring :=
  lit "lectures/" ++ join_with SLASH (slice_last_two (split_on SLASH fileUrl)).

(** The object the delete route removes from the bucket, if any:
    [if (lecture.originalFile.fileUrl) ..]. *)
Definition deleted_object (d : Lecture.lecture) : option jsstring :=
  match Lecture.originalFile_fileUrl d with
  | [] => None
  | _ :: _ => Some (delete_key (Lecture.originalFile_fileUrl d))
  end.

(** *** The file filter of the upload *)

(** [(process.env.ALLOWED_FILE_TYPES || 'pptx,pdf').split(',')]; [env] is
    the value of the variable, if it is set. *)
Definition allowedTypes (env : option jsstring) : list jsstring :=
  split_on 44%N
    match env with
    | Some (c :: v) => c :: v
    | _ => lit "pptx,pdf"
    end.

(** The [fileFilter] given to multer: [allowedTypes.includes(fileExtension)],
    where [fileExtension] is computed by the expression that gives
    [fileType].  A file the filter refuses never reaches the handler. *)
Definition fileFilter (env : option jsstring) (req : request) : bool :=
  existsb (jseqb (fileType req)) (allowedTypes env).

End Upload.

(* ===================================================================== *)
(** * Properties *)
(* ===================================================================== *)

Module JsStringFacts.

Import JsString.
Local Open Scope N_scope.

Lemma jseqb_eq (a b : jsstring) : jseqb a b = true <-> a = b.
Proof.
  revert b; induction a as [|x a IH]; intros [|y b]; simpl;
    try (split; [discriminate | congruence]); try tauto.
  rewrite andb_true_iff, N.eqb_eq, IH. split.
  - intros [-> ->]; reflexivity.
  - intros E; inversion E; auto.
Qed.

Lemma jseqb_refl (a : jsstring) : jseqb a a = true.
Proof. apply jseqb_eq; reflexivity. Qed.

(** *** Facts on runs, trimming and the classes *)

Lemma newline_is_space c : is_newline c = true -> is_space c = true.
Proof.
  unfold is_newline; rewrite N.eqb_eq; intros ->; reflexivity.
Qed.

Lemma space_is_space : is_space SPACE = true.
Proof. reflexivity. Qed.

(** A string is single-spaced for a class [p] and a replacement [r] when its
    only character of the class is [r] and no two of them are adjacent. *)
Fixpoint single_spaced (p : codeunit -> bool) (r : codeunit) (s : jsstring) : Prop :=
  match s with
  | [] => True
  | c :: s' =>
      (p c = true -> c = r /\ starts_with p s' = false) /\ single_spaced p r s'
  end.

Lemma replace_runs_from_single_spaced p r (Hr : p r = true) s :
  forall b, single_spaced p r (replace_runs_from p r b s)
            /\ (b = true -> starts_with p (replace_runs_from p r b s) = false).
Proof.
  induction s as [|c s IH]; intros b; simpl.
  - auto.
  - destruct (p c) eqn:Hc.
    + destruct b.
      * apply IH.
      * destruct (IH true) as [H1 H2]. simpl. repeat split; auto; discriminate.
    + destruct (IH false) as [H1 _]. simpl. repeat split; auto; congruence.
Qed.

Lemma single_spaced_fixed p r s :
  single_spaced p r s -> replace_runs_from p r false s = s.
Proof.
  induction s as [|c s IH]; simpl; auto.
  intros [H1 H2]. destruct (p c) eqn:Hc.
  - destruct (H1 eq_refl) as [-> Hs]. f_equal.
    destruct s as [|d s]; simpl in *; auto.
    rewrite Hs. destruct H2 as [_ H2]. f_equal.
    specialize (IH (conj (fun H => match Bool.diff_false_true
                                       (eq_trans (eq_sym Hs) H) with end) H2)).
    simpl in IH. rewrite Hs in IH. congruence.
  - f_equal; auto.
Qed.

Lemma none_in_class_fixed p r s :
  Forall (fun c => p c = false) s -> forall b, replace_runs_from p r b s = s.
Proof.
  induction 1 as [|c s Hc _ IH]; intros b; simpl; auto.
  rewrite Hc. f_equal; apply IH.
Qed.

Lemma single_spaced_class q p r s :
  (forall c, q c = true -> p c = true) -> q r = false ->
  single_spaced p r s -> Forall (fun c => q c = false) s.
Proof.
  intros Hqp Hqr. induction s as [|c s IH]; simpl; intros H; constructor.
  - destruct (q c) eqn:Hq; auto.
    destruct H as [H _]. destruct (H (Hqp _ Hq)) as [-> _]. congruence.
  - apply IH, H.
Qed.

Lemma single_spaced_trimStart p r s :
  single_spaced p r s -> single_spaced p r (trimStart s).
Proof.
  induction s as [|c s IH]; simpl; auto.
  intros H. destruct (is_space c); auto. apply IH, H.
Qed.

Lemma starts_with_trimEnd p s :
  starts_with p s = false -> starts_with p (trimEnd s) = false.
Proof.
  destruct s as [|c s]; simpl; auto.
  intros H. destruct (trimEnd s); [destruct (is_space c)|]; simpl; auto.
Qed.

Lemma single_spaced_trimEnd p r s :
  single_spaced p r s -> single_spaced p r (trimEnd s).
Proof.
  induction s as [|c s IH]; simpl; auto.
  intros [H1 H2]. specialize (IH H2).
  destruct (trimEnd s) as [|d t] eqn:Ht.
  - destruct (is_space c); simpl; auto. split; auto.
    intros Hc. destruct (H1 Hc); auto.
  - simpl. split; auto. intros Hc. destruct (H1 Hc) as [-> Hs]. split; auto.
    apply starts_with_trimEnd with (p := p) in Hs. rewrite Ht in Hs. exact Hs.
Qed.

Lemma trimStart_no_lead s : starts_with is_space (trimStart s) = false.
Proof.
  induction s as [|c s IH]; simpl; auto.
  destruct (is_space c) eqn:Hc; auto.
Qed.

Lemma trimEnd_no_trail s : ends_with is_space (trimEnd s) = false.
Proof.
  induction s as [|c s IH]; simpl; auto.
  destruct (trimEnd s) as [|d t] eqn:Ht.
  - destruct (is_space c) eqn:Hc; simpl; auto.
  - simpl. exact IH.
Qed.

Lemma trimStart_fixed s : starts_with is_space s = false -> trimStart s = s.
Proof.
  destruct s as [|c s]; simpl; auto. intros ->; reflexivity.
Qed.

Lemma trimEnd_fixed s : ends_with is_space s = false -> trimEnd s = s.
Proof.
  induction s as [|c s IH]; simpl; auto.
  destruct s as [|d s].
  - simpl. intros ->; reflexivity.
  - intros H. rewrite (IH H). reflexivity.
Qed.

Lemma trim_no_lead s : starts_with is_space (trim s) = false.
Proof. apply starts_with_trimEnd, trimStart_no_lead. Qed.

Lemma trim_no_trail s : ends_with is_space (trim s) = false.
Proof. apply trimEnd_no_trail. Qed.

Lemma trim_fixed s :
  starts_with is_space s = false -> ends_with is_space s = false -> trim s = s.
Proof.
  intros H1 H2. unfold trim. rewrite (trimStart_fixed _ H1). now apply trimEnd_fixed.
Qed.

Lemma Forall_trimStart (P : codeunit -> Prop) s : Forall P s -> Forall P (trimStart s).
Proof.
  induction 1 as [|c s Hc Hs IH]; simpl; auto.
  destruct (is_space c); auto.
Qed.

Lemma Forall_trimEnd (P : codeunit -> Prop) s : Forall P s -> Forall P (trimEnd s).
Proof.
  induction 1 as [|c s Hc Hs IH]; simpl; auto.
  destruct (trimEnd s); [destruct (is_space c)|]; auto.
Qed.

Lemma Forall_trim (P : codeunit -> Prop) s : Forall P s -> Forall P (trim s).
Proof. intros H. apply Forall_trimEnd, Forall_trimStart, H. Qed.

Lemma length_trimStart s : (List.length (trimStart s) <= List.length s)%nat.
Proof.
  induction s as [|c s IH]; simpl; auto. destruct (is_space c); simpl; lia.
Qed.

Lemma length_trimEnd s : (List.length (trimEnd s) <= List.length s)%nat.
Proof.
  induction s as [|c s IH]; simpl; auto.
  destruct (trimEnd s); [destruct (is_space c)|]; simpl in *; lia.
Qed.

Lemma length_trim s : (List.length (trim s) <= List.length s)%nat.
Proof.
  unfold trim. pose proof (length_trimEnd (trimStart s)).
  pose proof (length_trimStart s). lia.
Qed.

Lemma length_replace_runs_from p r b s :
  (List.length (replace_runs_from p r b s) <= List.length s)%nat.
Proof.
  revert b; induction s as [|c s IH]; intros b; simpl; auto.
  pose proof (IH true). pose proof (IH false).
  destruct (p c); [destruct b|]; simpl; lia.
Qed.

End JsStringFacts.

(* ===================================================================== *)
(** ** Script cleaning *)
(* ===================================================================== *)

Module CleaningFacts.

Import JsString JsStringFacts AiService.
Local Open Scope N_scope.

Lemma strip_leading_fixed p s : starts_with p s = false -> strip_leading p s = s.
Proof.
  destruct s as [|c s]; simpl; auto. intros ->; reflexivity.
Qed.

Lemma strip_trailing_fixed p s : ends_with p s = false -> strip_trailing p s = s.
Proof.
  induction s as [|c s IH]; simpl; auto.
  destruct s as [|d s].
  - intros ->; reflexivity.
  - intros H. rewrite (IH H). reflexivity.
Qed.

Lemma strip_both_ends_fixed p s :
  starts_with p s = false -> ends_with p s = false -> strip_both_ends p s = s.
Proof.
  intros H1 H2. unfold strip_both_ends.
  rewrite (strip_leading_fixed _ _ H1). now apply strip_trailing_fixed.
Qed.

(** The result of [cleanGeneratedContent] has single spaces as its only
    white space. *)
Lemma cleaned_single_spaced content :
  single_spaced is_space SPACE (cleanGeneratedContent content).
Proof.
  unfold cleanGeneratedContent, trim, replace_runs.
  apply single_spaced_trimEnd, single_spaced_trimStart.
  apply replace_runs_from_single_spaced. reflexivity.
Qed.

(** A string with two layers of double quotes around the letter a. *)
Definition doubly_quoted : jsstring := [34; 34; 97; 34; 34].

Example clean_doubly_quoted_once :
  cleanGeneratedContent doubly_quoted = [34; 97; 34].
Proof. reflexivity. Qed.

Example clean_doubly_quoted_twice :
  cleanGeneratedContent (cleanGeneratedContent doubly_quoted) = [97].
Proof. reflexivity. Qed.

(** C6, as stated, fails: on a script wrapped in two layers of quotes the
    first application removes one layer and the second application removes
    the other, so applying [cleanGeneratedContent] twice is not the same as
    applying it once. *)
Lemma cleanGeneratedContent_not_idempotent :
  cleanGeneratedContent (cleanGeneratedContent doubly_quoted)
  <> cleanGeneratedContent doubly_quoted.
Proof. vm_compute. discriminate. Qed.

(** C6, amended: whenever the cleaned script neither starts nor ends with a
    quotation mark, cleaning it again leaves it unchanged. *)
Theorem cleanGeneratedContent_idempotent_unquoted (content : jsstring) :
  starts_with is_quote (cleanGeneratedContent content) = false ->
  ends_with is_quote (cleanGeneratedContent content) = false ->
  cleanGeneratedContent (cleanGeneratedContent content)
  = cleanGeneratedContent content.
Proof.
  intros Hs He.
  pose proof (cleaned_single_spaced content) as Hsp.
  set (t := cleanGeneratedContent content) in *.
  unfold cleanGeneratedContent at 1.
  rewrite (strip_both_ends_fixed _ _ Hs He).
  assert (Hnl : Forall (fun c => is_newline c = false) t).
  { apply single_spaced_class with (p := is_space) (r := SPACE); auto.
    apply newline_is_space. }
  unfold replace_runs.
  rewrite (@none_in_class_fixed is_newline SPACE t Hnl false).
  rewrite (single_spaced_fixed _ _ _ Hsp).
  apply trim_fixed; subst t; unfold cleanGeneratedContent.
  - apply trim_no_lead.
  - apply trim_no_trail.
Qed.

Lemma length_strip_leading p s :
  (List.length (strip_leading p s) <= List.length s)%nat
  /\ (starts_with p s = true ->
      (List.length (strip_leading p s) < List.length s)%nat).
Proof.
  destruct s as [|c s]; simpl.
  - split; [lia | discriminate].
  - destruct (p c); simpl; split; try lia; discriminate.
Qed.

Lemma length_strip_trailing p s :
  (List.length (strip_trailing p s) <= List.length s)%nat
  /\ (ends_with p s = true ->
      (List.length (strip_trailing p s) < List.length s)%nat).
Proof.
  induction s as [|c s IH]; simpl.
  - split; [lia | discriminate].
  - destruct s as [|d s].
    + destruct (p c); simpl; split; try lia; discriminate.
    + simpl in *. destruct IH as [IH1 IH2]. split; [lia|].
      intros H. specialize (IH2 H). lia.
Qed.

Lemma length_cleanGeneratedContent content :
  (List.length (cleanGeneratedContent content)
   <= List.length (strip_both_ends is_quote content))%nat.
Proof.
  unfold cleanGeneratedContent, replace_runs.
  pose proof (length_trim
                (replace_runs_from is_space SPACE false
                   (replace_runs_from is_newline SPACE false
                      (strip_both_ends is_quote content)))).
  pose proof (length_replace_runs_from is_space SPACE false
                (replace_runs_from is_newline SPACE false
                   (strip_both_ends is_quote content))).
  pose proof (length_replace_runs_from is_newline SPACE false
                (strip_both_ends is_quote content)).
  lia.
Qed.

(** Conversely, a cleaned script that still starts or ends with a quotation
    mark gets shorter when it is cleaned again. *)
Lemma cleanGeneratedContent_strips_again (content : jsstring) :
  starts_with is_quote (cleanGeneratedContent content) = true
  \/ ends_with is_quote (cleanGeneratedContent content) = true ->
  cleanGeneratedContent (cleanGeneratedContent content)
  <> cleanGeneratedContent content.
Proof.
  set (t := cleanGeneratedContent content). intros H E.
  pose proof (length_cleanGeneratedContent t) as Hl. rewrite E in Hl.
  unfold strip_both_ends in Hl.
  pose proof (length_strip_leading is_quote t) as [L1 L2].
  pose proof (length_strip_trailing is_quote (strip_leading is_quote t)) as [T1 T2].
  destruct (starts_with is_quote t) eqn:Hs.
  - specialize (L2 eq_refl). lia.
  - destruct H as [H|H]; [discriminate|].
    rewrite (strip_leading_fixed _ _ Hs) in *.
    specialize (T2 H). lia.
Qed.

Lemma cleanGeneratedContent_idempotent_unquoted_witness :
  starts_with is_quote
    (cleanGeneratedContent (lit "'  Welcome   to the course. '")) = false
  /\ ends_with is_quote
    (cleanGeneratedContent (lit "'  Welcome   to the course. '")) = false
  /\ cleanGeneratedContent
    (cleanGeneratedContent (lit "'  Welcome   to the course. '"))
  = cleanGeneratedContent (lit "'  Welcome   to the course. '").
Proof.
  split; [reflexivity | split; [reflexivity |]].
  apply cleanGeneratedContent_idempotent_unquoted; reflexivity.
Defined.

End CleaningFacts.

(* ===================================================================== *)
(** ** Fallback script and validation *)
(* ===================================================================== *)

Module FallbackFacts.

Import JsString JsStringFacts JsObject AiService.
Local Open Scope N_scope.

Lemma own_In o key v : own o key = Some v -> In (key, v) o.
Proof.
  induction o as [|[k w] o IH]; simpl; [discriminate|].
  destruct (jseqb k key) eqn:E.
  - apply jseqb_eq in E. intros [= ->]. left; congruence.
  - auto.
Qed.

(** The text of a built-in function, as [to_string] prints it. *)
Definition native_text (fname : jsstring) : jsstring :=
  to_string (NativeFunction fname).

(** Every text the greeting of the fallback can be. *)
Definition greeting_texts : list jsstring :=
  map snd languageGreetings
    ++ [ native_text (lit "Object"); to_string ObjectPrototype ]
    ++ map native_text prototype_methods.

Lemma existsb_jseqb_In key l : existsb (jseqb key) l = true -> In key l.
Proof.
  rewrite existsb_exists. intros (x & Hx & E).
  apply jseqb_eq in E. congruence.
Qed.

Lemma greeting_in_texts language :
  In (to_string (greeting_of language)) greeting_texts.
Proof.
  unfold greeting_of, get, greeting_texts.
  destruct (own languageGreetings language) as [v|] eqn:Hown.
  - apply own_In in Hown. apply in_or_app. left.
    assert (Hv : In v (map snd languageGreetings))
      by (change v with (snd (language, v)); now apply in_map).
    assert (Ht : truthy (Str v) = true).
    { simpl in Hv.
      repeat (destruct Hv as [<- | Hv]; [reflexivity|]). destruct Hv. }
    unfold or_else. rewrite Ht. exact Hv.
  - unfold inherited.
    destruct (jseqb language (lit "constructor")).
    { apply in_or_app; right. left; reflexivity. }
    destruct (jseqb language (lit "__proto__")).
    { apply in_or_app; right. right; left; reflexivity. }
    destruct (existsb (jseqb language) prototype_methods) eqn:Hm.
    + apply existsb_jseqb_In in Hm. apply in_or_app; right. right; right.
      unfold or_else; simpl truthy; cbv iota.
      change (to_string (NativeFunction language)) with (native_text language).
      now apply in_map.
    + apply in_or_app; left. left. reflexivity.
Qed.

(** The patterns of [problematicPatterns] start with the letter I or A. *)
Definition refusal_initial (c : codeunit) : bool :=
  (ascii_upper 73 =? ascii_upper c) || (ascii_upper 65 =? ascii_upper c).

Lemma patterns_initial :
  Forall (fun pattern =>
            forall c s, refusal_initial c = false ->
                        test_prefix_ci pattern (c :: s) = false)
         problematicPatterns.
Proof.
  repeat constructor; intros c s H; unfold refusal_initial in H;
    apply orb_false_iff in H; destruct H as [HI HA];
    cbn [lit list_ascii_of_string map test_prefix_ci];
    apply andb_false_iff; left; assumption.
Qed.

Lemma no_pattern_matches c s :
  refusal_initial c = false ->
  existsb (fun pattern => test_prefix_ci pattern (c :: s)) problematicPatterns
  = false.
Proof.
  intros H. pose proof patterns_initial as HF.
  induction HF as [|pat pats Hp _ IH]; simpl; auto.
  rewrite (Hp c s H). exact IH.
Qed.

Lemma validate_by_initial g rest :
  starts_with refusal_initial g = false -> g <> [] ->
  (50 <= jslength (g ++ rest) <= 2000)%Z ->
  validateGeneratedContent (g ++ rest) = true.
Proof.
  intros Hi Hg Hlen. destruct g as [|c g]; [congruence|].
  unfold validateGeneratedContent. simpl app in *. simpl in Hi.
  destruct (Z.ltb_spec (jslength (c :: g ++ rest)) 50); [lia|].
  destruct (Z.ltb_spec 2000 (jslength (c :: g ++ rest))); [lia|].
  rewrite no_pattern_matches by assumption. reflexivity.
Qed.

Lemma greeting_texts_fit :
  Forall (fun g => starts_with refusal_initial g = false /\ g <> []
                   /\ (13 <= List.length g <= 49)%nat) greeting_texts.
Proof.
  repeat constructor; try reflexivity; try discriminate;
    vm_compute; lia.
Qed.

(** The fallback script always passes [validateGeneratedContent]. *)
Lemma fallback_is_valid slideContent language :
  validateGeneratedContent (generateFallbackContent slideContent language) = true.
Proof.
  unfold generateFallbackContent.
  pose proof (greeting_in_texts language) as Hin.
  pose proof greeting_texts_fit as HF. rewrite Forall_forall in HF.
  destruct (HF _ Hin) as (Hi & Hne & Hlen).
  apply validate_by_initial; auto.
  unfold jslength, substring0. rewrite !length_app.
  pose proof (firstn_le_length 200 slideContent).
  pose proof (length_firstn 200 slideContent) as Hf.
  change (List.length fallback_middle) with 50%nat.
  change (List.length fallback_tail) with 155%nat. lia.
Qed.

(** For a language that is neither an own key of the table nor a name
    [Object.prototype] defines, the greeting is the English one. *)
Lemma greeting_of_unknown language :
  own languageGreetings language = None ->
  inherited language = Undefined ->
  greeting_of language = Str (lit "Hello everyone,").
Proof.
  intros Ho Hi. unfold greeting_of, get. rewrite Ho, Hi. reflexivity.
Qed.

Lemma greeting_of_own language text :
  own languageGreetings language = Some text ->
  greeting_of language = Str text.
Proof.
  intros Ho. unfold greeting_of, get. rewrite Ho.
  apply own_In in Ho. simpl in Ho.
  repeat (destruct Ho as [[= <- <-] | Ho]; [reflexivity|]). destruct Ho.
Qed.

Example fallback_english_empty :
  generateFallbackContent [] (lit "english")
  = lit "Hello everyone, today we will be discussing the following topic: . This is an important subject that we need to understand thoroughly. Let me explain the key points and provide some examples to help clarify the concepts.".
Proof. reflexivity. Qed.

(** C8: the language "constructor" is not a key of the greeting table, yet
    the lookup finds the member of that name inherited from
    [Object.prototype], which is truthy, so the English default is not
    taken and the fallback starts with the text of a built-in function
    instead of the greeting Hello everyone. *)
Theorem generateFallbackContent_inherited_key :
  own languageGreetings (lit "constructor") = None
  /\ generateFallbackContent [] (lit "constructor")
     = lit "function Object() { [native code] } today we will be discussing the following topic: . This is an important subject that we need to understand thoroughly. Let me explain the key points and provide some examples to help clarify the concepts.".
Proof. split; reflexivity. Qed.

End FallbackFacts.

(* ===================================================================== *)
(** ** Text preparation for speech *)
(* ===================================================================== *)

Module TtsFacts.

Import JsString JsStringFacts TtsService.
Local Open Scope N_scope.

(** The characters left once white space is a single space: ASCII word
    characters, the space and the five punctuation marks. *)
Definition is_plain (c : codeunit) : bool :=
  is_word c || (c =? SPACE) || is_tts_punct c.

Ltac split_classes :=
  unfold is_plain, is_tts_safe, matches_cyrillic_ci in *;
  unfold is_word, is_tts_punct, is_space, SPACE in *;
  unfold in_range in *;
  repeat rewrite ?orb_true_iff, ?orb_false_iff, ?andb_true_iff,
    ?andb_false_iff, ?N.leb_le, ?N.leb_gt, ?N.eqb_eq, ?N.eqb_neq in *.

Lemma plain_is_safe c : is_plain c = true -> is_tts_safe c = true.
Proof. split_classes. lia. Qed.

Lemma plain_is_ascii c : is_plain c = true -> c < 128.
Proof. split_classes. lia. Qed.

Lemma plain_not_cyrillic c : is_plain c = true -> matches_cyrillic_ci c = false.
Proof.
  intros H. apply plain_is_ascii in H.
  destruct (matches_cyrillic_ci c) eqn:E; auto.
  split_classes. lia.
Qed.

Lemma replace_runs_from_class p r b s :
  Forall (fun c => p c = true -> c = r) (replace_runs_from p r b s).
Proof.
  revert b; induction s as [|c s IH]; intros b; simpl; auto.
  destruct (p c) eqn:Hc; [destruct b|]; auto.
  constructor; auto. congruence.
Qed.

Lemma safe_single_space_plain s :
  Forall (fun c => is_space c = true -> c = SPACE) s ->
  Forall (fun c => is_plain c = true) (remove_outside is_tts_safe s).
Proof.
  unfold remove_outside.
  induction 1 as [|c s Hc _ IH]; simpl; auto.
  destruct (is_tts_safe c) eqn:Hs; auto. constructor; auto.
  unfold is_plain. unfold is_tts_safe in Hs.
  destruct (is_word c); auto. destruct (is_tts_punct c);
    [now rewrite orb_true_r|].
  simpl in Hs. rewrite orb_false_r in Hs. rewrite (Hc Hs). reflexivity.
Qed.

Lemma normalize_for_tts_plain text :
  Forall (fun c => is_plain c = true) (normalize_for_tts text).
Proof.
  unfold normalize_for_tts. apply Forall_trim, safe_single_space_plain.
  apply replace_runs_from_class.
Qed.

Lemma russian_formatting_plain s :
  Forall (fun c => is_plain c = true) s -> russian_formatting s = s.
Proof.
  unfold russian_formatting.
  induction 1 as [|c s Hc _ IH]; simpl; auto.
  rewrite (plain_not_cyrillic _ Hc). f_equal; exact IH.
Qed.

Lemma german_formatting_plain s :
  Forall (fun c => is_plain c = true) s -> german_formatting s = s.
Proof.
  unfold german_formatting.
  induction 1 as [|c s Hc _ IH]; simpl; auto.
  apply plain_is_ascii in Hc.
  destruct (N.eqb_spec c 223); [lia|]. simpl. f_equal; exact IH.
Qed.

Lemma language_formatting_plain language s :
  Forall (fun c => is_plain c = true) s -> language_formatting language s = s.
Proof.
  intros H. unfold language_formatting.
  destruct (jseqb language (lit "russian")); [now apply russian_formatting_plain|].
  destruct (jseqb language (lit "german")); [now apply german_formatting_plain|].
  reflexivity.
Qed.

Lemma limit_length_plain s :
  Forall (fun c => is_plain c = true) s ->
  Forall (fun c => is_plain c = true) (limit_length s).
Proof.
  intros H. unfold limit_length.
  destruct (4000 <? jslength s)%Z; auto.
  apply Forall_app; split.
  - unfold substring0. rewrite <- (firstn_skipn 4000 s) in H.
    apply Forall_app in H. apply H.
  - repeat constructor.
Qed.

Lemma limit_length_bound s : (jslength (limit_length s) <= 4003)%Z.
Proof.
  unfold limit_length, jslength.
  destruct (Z.ltb_spec 4000 (Z.of_nat (List.length s))) as [H|H].
  - rewrite length_app. unfold substring0.
    pose proof (firstn_le_length 4000 s).
    rewrite length_firstn. change (List.length (lit "...")) with 3%nat. lia.
  - unfold jslength in H. lia.
Qed.

(** C10: whatever the text and the language, the prepared text is made of
    ASCII word characters, white space and the marks . , ! ? - only; the text
    that reaches the language-specific step has no character above 127 left,
    so that step changes nothing; and the result has at most 4003
    characters. *)
Theorem prepareTextForTTS_output (text language : jsstring) :
  Forall (fun c => is_tts_safe c = true /\ c < 128)
         (prepareTextForTTS text language)
  /\ Forall (fun c => c < 128) (normalize_for_tts text)
  /\ language_formatting language (normalize_for_tts text)
     = normalize_for_tts text
  /\ (jslength (prepareTextForTTS text language) <= 4003)%Z.
Proof.
  pose proof (normalize_for_tts_plain text) as Hn.
  pose proof (language_formatting_plain language Hn) as Hl.
  unfold prepareTextForTTS. rewrite Hl.
  repeat split; auto.
  - apply limit_length_plain in Hn. rewrite Forall_forall in *.
    intros c Hc. split; [apply plain_is_safe | apply plain_is_ascii]; auto.
  - rewrite Forall_forall in *. intros c Hc. apply plain_is_ascii; auto.
  - apply limit_length_bound.
Qed.

Example prepare_russian :
  prepareTextForTTS
    ([1055; 1088; 1080; 1074; 1077; 1090; 44; 32; 32] ++ lit "slide #2: DNA (intro)")
    (lit "russian")
  = lit ", slide 2 DNA intro".
Proof. reflexivity. Qed.

End TtsFacts.

(* ===================================================================== *)
(** ** The store *)
(* ===================================================================== *)

Module StoreFacts.

Import Lecture.

Lemma persisted_app d us vs :
  persisted d (us ++ vs) = persisted (persisted d us) vs.
Proof. unfold persisted. apply fold_left_app. Qed.

Lemma persisted_snoc d us u :
  persisted d (us ++ [u]) = findByIdAndUpdate (persisted d us) u.
Proof. rewrite persisted_app. reflexivity. Qed.

Lemma history_app d us vs :
  history d (us ++ vs) = history d us ++ history (persisted d us) vs.
Proof.
  revert d; induction us as [|u us IH]; intros d; simpl; auto.
  rewrite IH. reflexivity.
Qed.

Lemma history_snoc d us u :
  history d (us ++ [u]) = history d us ++ [findByIdAndUpdate (persisted d us) u].
Proof. rewrite history_app. reflexivity. Qed.

Lemma last_cons_default {A} (l : list A) :
  forall a d d', last (a :: l) d = last (a :: l) d'.
Proof.
  induction l as [|b l IH]; intros a d d'; [reflexivity|].
  change (last (b :: l) d = last (b :: l) d'). apply IH.
Qed.

Lemma last_history d us : last (history d us) d = persisted d us.
Proof.
  revert d; induction us as [|u us IH]; intros d; auto.
  change (history d (u :: us))
    with (findByIdAndUpdate d u :: history (findByIdAndUpdate d u) us).
  change (persisted d (u :: us)) with (persisted (findByIdAndUpdate d u) us).
  rewrite <- IH.
  destruct (history (findByIdAndUpdate d u) us) as [|x l]; [reflexivity|].
  change (last (x :: l) d = last (x :: l) (findByIdAndUpdate d u)).
  apply last_cons_default.
Qed.

Lemma length_history d us : List.length (history d us) = List.length us.
Proof.
  revert d; induction us as [|u us IH]; intros d; simpl; auto.
Qed.

(** An assignment keeps a path when it names another one. *)
Definition keeps {A} (f : lecture -> A) (a : assignment) : Prop :=
  forall d, f (assign d a) = f d.

Lemma update_keeps {A} (f : lecture -> A) u d :
  Forall (keeps f) u -> f (findByIdAndUpdate d u) = f d.
Proof.
  unfold findByIdAndUpdate. intros H; revert d.
  induction H as [|a u Ha _ IH]; intros d; simpl; auto.
  rewrite IH. apply Ha.
Qed.

Lemma persisted_keeps {A} (f : lecture -> A) us d :
  Forall (Forall (keeps f)) us -> f (persisted d us) = f d.
Proof.
  unfold persisted. intros H; revert d.
  induction H as [|u us Hu _ IH]; intros d; simpl; auto.
  rewrite IH. now apply update_keeps.
Qed.

Lemma history_keeps {A} (f : lecture -> A) us d :
  Forall (Forall (keeps f)) us ->
  Forall (fun s => f s = f d) (history d us).
Proof.
  intros H; revert d.
  induction H as [|u us Hu _ IH]; intros d; simpl; auto.
  pose proof (update_keeps d Hu) as E.
  constructor; auto. rewrite <- E. apply IH.
Qed.

Lemma map_constant {A B} (f : A -> B) c l :
  Forall (fun s => f s = c) l -> map f l = repeat c (List.length l).
Proof.
  induction 1 as [|s l Hs _ IH]; simpl; congruence.
Qed.

Lemma last_cons {A} (l : list A) a d : last (a :: l) d = last l a.
Proof.
  destruct l as [|b l]; [reflexivity|].
  change (last (b :: l) d = last (b :: l) a). apply last_cons_default.
Qed.

Lemma last_map {A B} (f : A -> B) l d : last (map f l) (f d) = f (last l d).
Proof.
  induction l as [|a l IH]; [reflexivity|].
  destruct l as [|b l]; [reflexivity|]. exact IH.
Qed.

End StoreFacts.

(* ===================================================================== *)
(** ** The pipeline run *)
(* ===================================================================== *)

Module PipelineFacts.

Import JsString Exc Upload StoreFacts.
Local Open Scope Z_scope.

(** *** The update documents of the route, by name *)

Definition accepted_update (req : request) : Lecture.update :=
  [ Lecture.Set_originalFile_fileName (originalname req);
    Lecture.Set_originalFile_fileType (fileType req);
    Lecture.Set_originalFile_fileSize (size req);
    Lecture.Set_status Lecture.processing;
    Lecture.Set_processingProgress 10 ].

Definition stored_update (location : jsstring) : Lecture.update :=
  [ Lecture.Set_originalFile_fileUrl location;
    Lecture.Set_processingProgress 20 ].

Definition skeleton_update (slides : list FileProcessor.extracted) : Lecture.update :=
  [ Lecture.Set_slides (skeletons_from 0 slides);
    Lecture.Set_processingProgress 40 ].

Definition progress_update (n : Z) (i : nat) : Lecture.update :=
  [ Lecture.Set_processingProgress (progress_after i n) ].

(** The update document [u] as the store receives it when it is the
    [k]-th update of the run. *)
Definition stamped (w : world) (k : nat) (u : Lecture.update) : Lecture.update :=
  Lecture.with_timestamp (now w k) u.

(** The progress updates of the slides [i], .., [i + k - 1]; the one of
    slide [j] is the update number [3 + j] of the run. *)
Definition progress_updates (w : world) (n : Z) (i k : nat) : list Lecture.update :=
  map (fun j => stamped w (3 + j) (progress_update n j)) (seq i k).

Definition final_update (w : world) (processedSlides : list Lecture.slide)
  : Lecture.update :=
  [ Lecture.Set_slides processedSlides;
    Lecture.Set_totalDuration (sum_durations processedSlides);
    Lecture.Set_status Lecture.ready;
    Lecture.Set_processingProgress 100;
    Lecture.Set_metadata_slideCount (Z.of_nat (List.length processedSlides));
    Lecture.Set_metadata_processingTime (elapsed w) ].

(** *** The loop *)

(** The script the route computes for the slide at index [i]. *)
Definition script_of (w : world) (language : jsstring) (i : nat)
           (x : FileProcessor.extracted) : jsstring :=
  AiService.generateLectureContent (FileProcessor.ex_content x) language (chat w i).

(** The outcome of [generateSpeech] for the slide at index [i]. *)
Definition audio_of (w : world) (language : jsstring) (i : nat)
           (x : FileProcessor.extracted) : result jsstring :=
  TtsService.generateSpeech (speech w i) (script_of w language i x) language.

Definition processed_slide (w : world) (language : jsstring) (i : nat)
           (x : FileProcessor.extracted) (audioUrl : jsstring) : Lecture.slide :=
  {| Lecture.slideNumber := Z.of_nat i + 1;
     Lecture.imageUrl := FileProcessor.ex_imageUrl x;
     Lecture.content := FileProcessor.ex_content x;
     Lecture.aiScript := script_of w language i x;
     Lecture.audioUrl := audioUrl;
     Lecture.duration := 0 |}.

(** What the loop does from index [i] on: the slides it pushes and the
    number of iterations it completes. *)
Fixpoint loop_outcome (w : world) (language : jsstring) (i : nat)
         (todo : list FileProcessor.extracted)
  : result (list Lecture.slide) * nat :=
  match todo with
  | [] => (Ok [], 0%nat)
  | x :: rest =>
      match audio_of w language i x with
      | Throw e => (Throw e, 0%nat)
      | Ok audioUrl =>
          match loop_outcome w language (S i) rest with
          | (Ok pushed, k) => (Ok (processed_slide w language i x audioUrl :: pushed), S k)
          | (Throw e, k) => (Throw e, S k)
          end
      end
  end.

Lemma length_progress_updates w n i k :
  List.length (progress_updates w n i k) = k.
Proof. unfold progress_updates. now rewrite length_map, length_seq. Qed.

Lemma process_slides_outcome w language n todo :
  forall i processedSlides tr,
    List.length tr = (3 + i)%nat ->
    process_slides w language n i todo processedSlides tr
    = (match fst (loop_outcome w language i todo) with
       | Ok pushed => Ok (processedSlides ++ pushed)
       | Throw e => Throw e
       end,
       tr ++ progress_updates w n i (snd (loop_outcome w language i todo))).
Proof.
  induction todo as [|x rest IH]; intros i acc tr Hlen; simpl.
  - unfold ret. rewrite !app_nil_r. reflexivity.
  - unfold bind at 1. unfold await, audio_of, script_of.
    destruct (TtsService.generateSpeech _ _ _) as [audioUrl|e] eqn:Hs.
    + unfold bind at 1. unfold send. rewrite IH.
      2:{ rewrite length_app, Hlen. simpl. lia. }
      fold (script_of w language i x).
      fold (processed_slide w language i x audioUrl).
      rewrite Hlen.
      destruct (loop_outcome w language (S i) rest) as [[pushed|e] k]; simpl;
        unfold progress_updates; simpl; rewrite <- !app_assoc; reflexivity.
    + simpl. rewrite app_nil_r. reflexivity.
Qed.

Lemma generateSpeech_message tts text language e :
  TtsService.generateSpeech tts text language = Throw e ->
  e = lit "Failed to generate speech".
Proof.
  unfold TtsService.generateSpeech. destruct (tts _ _); congruence.
Qed.

(** The loop either pushes one slide per extracted slide and completes all
    iterations, or stops at the first slide whose synthesis throws. *)
Lemma loop_outcome_count w language todo :
  forall i,
    match loop_outcome w language i todo with
    | (Ok pushed, k) =>
        k = List.length todo /\ List.length pushed = List.length todo
    | (Throw e, k) =>
        (k < List.length todo)%nat /\ e = lit "Failed to generate speech"
    end.
Proof.
  induction todo as [|x rest IH]; intros i; simpl; auto.
  destruct (audio_of w language i x) as [audioUrl|e] eqn:Ha.
  - specialize (IH (S i)).
    destruct (loop_outcome w language (S i) rest) as [[pushed|e] k]; simpl.
    + destruct IH; split; congruence.
    + destruct IH; split; auto. lia.
  - split; [lia|]. eapply generateSpeech_message; eauto.
Qed.

(** *** The shape of a run *)

(** The four ways a run goes: the upload of the file throws; the extraction
    throws; the synthesis for some slide throws; or everything succeeds. *)
Inductive run_shape (w : world) (req : request)
  : result (list Lecture.slide) -> list Lecture.update -> Prop :=
| upload_failed e :
    s3_upload w = Throw e ->
    run_shape w req (Throw e)
      ([stamped w 0 (accepted_update req)] ++ [stamped w 1 (error_update e)])
| extraction_failed location e :
    s3_upload w = Ok location ->
    extract w req = Throw e ->
    run_shape w req (Throw e)
      ([stamped w 0 (accepted_update req); stamped w 1 (stored_update location)]
         ++ [stamped w 2 (error_update e)])
| synthesis_failed location slides e k :
    s3_upload w = Ok location ->
    extract w req = Ok slides ->
    loop_outcome w (body_language req) 0 slides = (Throw e, k) ->
    run_shape w req (Throw e)
      (([stamped w 0 (accepted_update req); stamped w 1 (stored_update location);
        stamped w 2 (skeleton_update slides)]
          ++ progress_updates w (Z.of_nat (List.length slides)) 0 k)
         ++ [stamped w (3 + k) (error_update e)])
| completed location slides processedSlides :
    s3_upload w = Ok location ->
    extract w req = Ok slides ->
    loop_outcome w (body_language req) 0 slides
      = (Ok processedSlides, List.length slides) ->
    run_shape w req (Ok processedSlides)
      (([stamped w 0 (accepted_update req); stamped w 1 (stored_update location);
        stamped w 2 (skeleton_update slides)]
          ++ progress_updates w (Z.of_nat (List.length slides)) 0 (List.length slides))
         ++ [stamped w (3 + List.length slides) (final_update w processedSlides)]).

Lemma run_cases w req :
  exists r us, run w req = (r, us) /\ run_shape w req r us.
Proof.
  unfold run, handler, try_catch, try_block.
  unfold bind at 1. unfold send at 1. cbn [app List.length].
  unfold bind at 1. unfold await at 1.
  destruct (s3_upload w) as [location|e] eqn:Hup.
  2:{ unfold bind, send, await. cbn [app List.length].
      do 2 eexists; split; [reflexivity|]. now apply upload_failed. }
  unfold bind at 1. unfold send at 1. cbn [app List.length].
  unfold bind at 1. unfold await at 1.
  destruct (extract w req) as [slides|e] eqn:Hex.
  2:{ unfold bind, send, await. cbn [app List.length].
      do 2 eexists; split; [reflexivity|]. now apply extraction_failed. }
  unfold bind at 1. unfold send at 1. cbn [app List.length].
  unfold bind at 1. rewrite process_slides_outcome by reflexivity.
  pose proof (loop_outcome_count w (body_language req) slides 0%nat) as Hc.
  destruct (loop_outcome w (body_language req) 0 slides) as [[pushed|e] k] eqn:Hl;
    cbn [fst snd].
  - destruct Hc as [-> _]. unfold bind, send, ret.
    cbn [app List.length]. rewrite length_progress_updates.
    do 2 eexists; split; [reflexivity|].
    eapply completed; eauto.
  - unfold bind, send, await.
    cbn [app List.length]. rewrite length_progress_updates.
    do 2 eexists; split; [reflexivity|].
    eapply synthesis_failed; eauto.
Qed.

Lemma run_has_shape w req : run_shape w req (response w req) (updates w req).
Proof.
  unfold response, updates.
  destruct (run_cases w req) as (r & us & -> & H). exact H.
Qed.

(** *** Progress values *)

Lemma progress_after_bounds n i :
  Z.of_nat i + 1 <= n -> 40 <= progress_after i n <= 80.
Proof.
  intros H. unfold progress_after, round_ratio. split.
  - apply Z.div_le_lower_bound; lia.
  - apply Z.lt_succ_r. apply Z.div_lt_upper_bound; lia.
Qed.

Lemma progress_after_mono n i :
  0 < n -> progress_after i n <= progress_after (S i) n.
Proof.
  intros H. unfold progress_after, round_ratio.
  apply Z.div_le_mono; lia.
Qed.

(** Each value is at least the one before it, the first at least [lo]. *)
Fixpoint chain (lo : Z) (l : list Z) : Prop :=
  match l with
  | [] => True
  | a :: t => lo <= a /\ chain a t
  end.

(** Each value of the list is at most the next one. *)
Fixpoint nondecreasing (l : list Z) : Prop :=
  match l with
  | [] => True
  | a :: t =>
      match t with
      | [] => True
      | b :: _ => a <= b
      end /\ nondecreasing t
  end.

Lemma chain_nondecreasing l : forall lo, chain lo l -> nondecreasing l.
Proof.
  induction l as [|a t IH]; simpl; auto.
  intros lo [_ H]. split; [|eauto].
  destruct t; simpl in *; tauto.
Qed.

Lemma chain_app l1 : forall lo l2,
  chain lo l1 -> chain (last l1 lo) l2 -> chain lo (l1 ++ l2).
Proof.
  induction l1 as [|a t IH]; intros lo l2; simpl app; auto.
  intros [H1 H2] H3. rewrite last_cons in H3. simpl. auto.
Qed.

Lemma last_bounded hi l : forall lo,
  lo <= hi -> Forall (fun a => a <= hi) l -> last l lo <= hi.
Proof.
  induction l as [|a t IH]; intros lo Hlo H; auto.
  rewrite last_cons. inversion H; subst. apply IH; auto.
Qed.

Lemma chain_progress n k : forall i lo,
  0 < n -> lo <= progress_after i n ->
  chain lo (map (fun j => progress_after j n) (seq i k)).
Proof.
  induction k as [|k IH]; intros i lo Hn Hlo; simpl; auto.
  split; auto. apply IH; auto. now apply progress_after_mono.
Qed.

Lemma bounded_progress n k : forall i,
  (Z.of_nat (i + k) <= n) ->
  Forall (fun a => a <= 80) (map (fun j => progress_after j n) (seq i k)).
Proof.
  induction k as [|k IH]; intros i H; simpl; constructor.
  - apply progress_after_bounds. lia.
  - apply IH. lia.
Qed.

Lemma history_progress_updates w n k : forall d i,
  map Lecture.processingProgress (Lecture.history d (progress_updates w n i k))
  = map (fun j => progress_after j n) (seq i k).
Proof.
  induction k as [|k IH]; intros d i; simpl; auto.
  f_equal. apply IH.
Qed.

Lemma progress_updates_keep {A} (f : Lecture.lecture -> A) w n i k :
  (forall v, keeps f (Lecture.Set_processingProgress v)
             /\ keeps f (Lecture.Set_updatedAt v)) ->
  Forall (Forall (keeps f)) (progress_updates w n i k).
Proof.
  intros H. unfold progress_updates. apply Forall_forall.
  intros u Hu. apply in_map_iff in Hu. destruct Hu as (j & <- & _).
  repeat constructor; apply H.
Qed.

(** *** The updates before the last one *)

(** The updates a run sends before its last one: the lecture is
    [processing] after each of them, and the progress values go up from 10
    and stay at or below 80. *)
Definition orderly (pre : list Lecture.update) : Prop :=
  forall d,
    Forall (fun s => Lecture.status s = Lecture.processing) (Lecture.history d pre)
    /\ (exists p ps,
          map Lecture.processingProgress (Lecture.history d pre) = p :: ps
          /\ chain 10 (p :: ps) /\ Forall (fun a => a <= 80) (p :: ps)).

Lemma orderly_accepted w req : orderly [stamped w 0 (accepted_update req)].
Proof.
  intros d. split; [repeat constructor|].
  exists 10, []. simpl. repeat split; repeat constructor; lia.
Qed.

Lemma orderly_stored w req location :
  orderly [stamped w 0 (accepted_update req); stamped w 1 (stored_update location)].
Proof.
  intros d. split; [repeat constructor|].
  exists 10, [20]. simpl. repeat split; repeat constructor; lia.
Qed.

Lemma orderly_loop w req location slides k :
  (k <= List.length slides)%nat ->
  orderly ([stamped w 0 (accepted_update req); stamped w 1 (stored_update location);
        stamped w 2 (skeleton_update slides)]
             ++ progress_updates w (Z.of_nat (List.length slides)) 0 k).
Proof.
  intros Hk d. set (n := Z.of_nat (List.length slides)).
  rewrite history_app. split.
  - apply Forall_app. split; [repeat constructor|].
    eapply Forall_impl;
      [| apply (history_keeps (f := Lecture.status));
         apply progress_updates_keep; intros v; split; intros d'; reflexivity ].
    intros s ->. reflexivity.
  - rewrite map_app, history_progress_updates.
    exists 10, ([20; 40] ++ map (fun j => progress_after j n) (seq 0 k)).
    split; [reflexivity|]. split.
    + change (chain 10 ([10; 20; 40] ++ map (fun j => progress_after j n) (seq 0 k))).
      apply chain_app; [simpl; lia|]. simpl last.
      destruct k as [|k]; [exact I|].
      apply chain_progress; [lia|].
      apply progress_after_bounds. lia.
    + change (Forall (fun a => a <= 80)
                ([10; 20; 40] ++ map (fun j => progress_after j n) (seq 0 k))).
      apply Forall_app. split; [repeat constructor; lia|].
      apply bounded_progress. lia.
Qed.

(** Every run sends an orderly sequence of updates and then one last
    update: the error update with the message of the exception, or the final
    update with the processed slides. *)
Lemma run_updates w req :
  exists pre u,
    updates w req = pre ++ [u] /\ orderly pre
    /\ match response w req with
       | Throw e => u = stamped w (List.length pre) (error_update e)
       | Ok processedSlides =>
           u = stamped w (List.length pre) (final_update w processedSlides)
       end.
Proof.
  destruct (run_has_shape w req) as [e H|loc e H1 H2|loc slides e k H1 H2 H3|loc slides ps H1 H2 H3];
    do 2 eexists; (split; [reflexivity|]); split.
  - apply orderly_accepted.
  - reflexivity.
  - apply orderly_stored.
  - reflexivity.
  - apply orderly_loop.
    pose proof (loop_outcome_count w (body_language req) slides 0%nat) as Hc.
    rewrite H3 in Hc. lia.
  - rewrite length_app, length_progress_updates. reflexivity.
  - apply orderly_loop. lia.
  - rewrite length_app, length_progress_updates. reflexivity.
Qed.

(** *** Sample runs *)

(** A lecture as the creation route saves it. *)
Definition fresh_lecture : Lecture.lecture :=
  {| Lecture.name := lit "Cell biology";
     Lecture.owner := lit "64b7f0c2";
     Lecture.originalFile_fileName := [];
     Lecture.originalFile_fileUrl := [];
     Lecture.originalFile_fileType := [];
     Lecture.originalFile_fileSize := 0;
     Lecture.language := lit "english";
     Lecture.slides := [];
     Lecture.status := Lecture.uploading;
     Lecture.processingProgress := 0;
     Lecture.aiPrompt := [];
     Lecture.totalDuration := 0;
     Lecture.metadata_slideCount := 0;
     Lecture.metadata_processingTime := 0;
     Lecture.errorMessage := [];
     Lecture.isPublic := false;
     Lecture.tags := [];
     Lecture.createdAt := 1699999990000;
     Lecture.updatedAt := 1699999990000 |}.

Definition upload_of (type : string) : request :=
  {| originalname := lit "cells." ++ lit type;
     size := 20480;
     fileType := lit type;
     body_language := lit "english";
     body_aiPrompt := [] |}.

Definition good_script : jsstring :=
  lit "Welcome to this lecture. Today we look at the cell and at the parts it is made of.".

Definition audio_location : jsstring := lit "https://bucket.s3.amazonaws.com/audio/audio-1.mp3".

(** A world where the storage, the renderer and both providers work, for a
    document with the given text. *)
Definition working_world (text : jsstring) : world :=
  {| s3_upload := Ok (lit "https://bucket.s3.amazonaws.com/lectures/1/cells");
     pdf_parse := Ok text;
     render := fun _ _ => lit "https://bucket.s3.amazonaws.com/slides/slide.png";
     chat := fun _ => AiService.Content good_script;
     speech := fun _ _ _ => Ok audio_location;
     elapsed := 5000;
     now := fun k => 1700000000000 + 1000 * Z.of_nat k |}.

Definition with_chat (w : world) (c : nat -> AiService.completion) : world :=
  {| s3_upload := s3_upload w; pdf_parse := pdf_parse w; render := render w;
     chat := c; speech := speech w; elapsed := elapsed w;
     now := now w |}.

Definition with_speech (w : world) (t : nat -> TtsService.synthesizer) : world :=
  {| s3_upload := s3_upload w; pdf_parse := pdf_parse w; render := render w;
     chat := chat w; speech := t; elapsed := elapsed w;
     now := now w |}.

Definition with_pdf_parse (w : world) (r : result jsstring) : world :=
  {| s3_upload := s3_upload w; pdf_parse := r; render := render w;
     chat := chat w; speech := speech w; elapsed := elapsed w;
     now := now w |}.

(** A document of two paragraphs. *)
Definition two_paragraphs : jsstring :=
  lit "Cells are the basic units of life." ++ [10; 10]%N
    ++ lit "DNA stores the genetic information.".

(** The speech provider throws for the first slide only. *)
Definition first_speech_fails : nat -> TtsService.synthesizer :=
  fun i _ _ =>
    match i with
    | O => Throw (lit "429 quota exceeded")
    | S _ => Ok audio_location
    end.

(** *** Progress *)

Definition complete_when_ready (s : Lecture.lecture) : Prop :=
  Lecture.status s = Lecture.ready -> Lecture.processingProgress s = 100.

(** The progress values persisted by a run go up from 10. *)
Lemma progress_chain (d : Lecture.lecture) (w : world) (req : request) :
  chain 10 (map Lecture.processingProgress (Lecture.history d (updates w req))).
Proof.
  destruct (run_updates w req) as (pre & u & -> & Ho & Hu).
  destruct (Ho d) as (Hst & p & ps & Hp & Hc & Hb).
  rewrite history_snoc, map_app, Hp.
  apply chain_app; auto. simpl map. simpl chain. split; auto.
  destruct (response w req) as [processedSlides|e]; subst u.
  - change (last (p :: ps) 10 <= 100).
    pose proof (@last_bounded 80 (p :: ps) 10 ltac:(lia) Hb). lia.
  - change (last (p :: ps) 10
            <= Lecture.processingProgress (Lecture.persisted d pre)).
    rewrite <- last_history.
    rewrite <- (last_map Lecture.processingProgress (Lecture.history d pre) d), Hp.
    rewrite (last_cons_default ps p 10 (Lecture.processingProgress d)). lia.
Qed.

(** C3: along the documents a run persists, one per update, the progress
    value never goes down (the error update leaves it as it is), and every
    document whose status is [ready] has progress 100. *)
Theorem progress_monotone_and_complete
        (d : Lecture.lecture) (w : world) (req : request) :
  nondecreasing
    (map Lecture.processingProgress (Lecture.history d (updates w req)))
  /\ Forall complete_when_ready (Lecture.history d (updates w req)).
Proof.
  split.
  - apply chain_nondecreasing with (lo := 10). apply progress_chain.
  - destruct (run_updates w req) as (pre & u & -> & Ho & Hu).
    destruct (Ho d) as (Hst & _).
    rewrite history_snoc. apply Forall_app. split.
    + eapply Forall_impl; [|exact Hst]. intros s Hs. unfold complete_when_ready.
      rewrite Hs. discriminate.
    + constructor; [|constructor]. unfold complete_when_ready.
      destruct (response w req) as [processedSlides|e]; subst u.
      * reflexivity.
      * discriminate.
Qed.

(** For a lecture whose progress is at most 10 before the run, as it is
    for a lecture that was just created, the first update does not lower
    the progress either. *)
Lemma progress_monotone_from_creation
      (d : Lecture.lecture) (w : world) (req : request) :
  Lecture.processingProgress d <= 10 ->
  nondecreasing
    (Lecture.processingProgress d
       :: map Lecture.processingProgress (Lecture.history d (updates w req))).
Proof.
  intros Hd. apply chain_nondecreasing with (lo := Lecture.processingProgress d).
  pose proof (progress_chain d w req) as H.
  destruct (map Lecture.processingProgress (Lecture.history d (updates w req)))
    as [|p ps]; simpl in *; intuition lia.
Qed.

Example progress_values_scenario :
  map Lecture.processingProgress
      (Lecture.history fresh_lecture
         (updates (working_world two_paragraphs) (upload_of "pdf")))
  = [10; 20; 40; 60; 80; 100].
Proof. reflexivity. Qed.

(** *** Status *)

(** What C5 says of one run: a run that ends [ready] was [generating] at
    some point before. *)
Definition passes_through_generating
           (d : Lecture.lecture) (w : world) (req : request) : Prop :=
  Lecture.status (final d w req) = Lecture.ready ->
  exists s, In s (Lecture.history d (updates w req))
            /\ Lecture.status s = Lecture.generating.

Example statuses_of_working_run :
  map Lecture.status
      (Lecture.history fresh_lecture
         (updates (working_world two_paragraphs) (upload_of "pdf")))
  = [Lecture.processing; Lecture.processing; Lecture.processing;
     Lecture.processing; Lecture.processing; Lecture.ready].
Proof. reflexivity. Qed.

(** C5, as stated, fails: the run of a two-paragraph PDF where every call
    succeeds ends [ready], and none of the documents it persists has the
    status [generating]. *)
Lemma ready_without_generating :
  ~ passes_through_generating
      fresh_lecture (working_world two_paragraphs) (upload_of "pdf").
Proof.
  intros H. destruct (H eq_refl) as (s & Hin & Hs).
  assert (Hmap : In (Lecture.status s)
                    (map Lecture.status
                       (Lecture.history fresh_lecture
                          (updates (working_world two_paragraphs) (upload_of "pdf")))))
    by now apply in_map.
  rewrite statuses_of_working_run, Hs in Hmap. simpl in Hmap.
  repeat (destruct Hmap as [Hmap|Hmap]; [discriminate|]). exact Hmap.
Qed.

(** C5, amended: the status is [processing] after every update of a run but
    the last, and [ready] or [error] after the last; the route never sets
    [generating], and the status never goes back. *)
Theorem status_sequence (d : Lecture.lecture) (w : world) (req : request) :
  exists k t,
    map Lecture.status (Lecture.history d (updates w req))
    = repeat Lecture.processing (S k) ++ [t]
    /\ (t = Lecture.ready \/ t = Lecture.error).
Proof.
  destruct (run_updates w req) as (pre & u & -> & Ho & Hu).
  destruct (Ho d) as (Hst & p & ps & Hp & _).
  assert (Hlen : List.length (Lecture.history d pre) = S (List.length ps)).
  { rewrite <- (length_map Lecture.processingProgress), Hp. reflexivity. }
  exists (List.length ps), (Lecture.status
                              (Lecture.findByIdAndUpdate (Lecture.persisted d pre) u)).
  rewrite history_snoc, map_app, (map_constant _ Hst), Hlen. split; [reflexivity|].
  destruct (response w req); subst u; [left | right]; reflexivity.
Qed.

(** *** The error update *)

(** The paths that neither the error update names nor the store stamps. *)
Definition unchanged_elsewhere (before after : Lecture.lecture) : Prop :=
  Lecture.name after = Lecture.name before
  /\ Lecture.owner after = Lecture.owner before
  /\ Lecture.originalFile_fileName after = Lecture.originalFile_fileName before
  /\ Lecture.originalFile_fileUrl after = Lecture.originalFile_fileUrl before
  /\ Lecture.originalFile_fileType after = Lecture.originalFile_fileType before
  /\ Lecture.originalFile_fileSize after = Lecture.originalFile_fileSize before
  /\ Lecture.language after = Lecture.language before
  /\ Lecture.slides after = Lecture.slides before
  /\ Lecture.processingProgress after = Lecture.processingProgress before
  /\ Lecture.aiPrompt after = Lecture.aiPrompt before
  /\ Lecture.totalDuration after = Lecture.totalDuration before
  /\ Lecture.metadata_slideCount after = Lecture.metadata_slideCount before
  /\ Lecture.metadata_processingTime after = Lecture.metadata_processingTime before
  /\ Lecture.isPublic after = Lecture.isPublic before
  /\ Lecture.tags after = Lecture.tags before
  /\ Lecture.createdAt after = Lecture.createdAt before.

Definition unreadable_pdf : world :=
  with_pdf_parse (working_world []) (Throw (lit "Invalid PDF structure")).

(** What C9 says of one run: when the run fails, the last update sets the
    status and the error message and leaves every other path of the document,
    [updatedAt] among them, as the update before left it. *)
Definition error_update_changes_nothing_else
           (d : Lecture.lecture) (w : world) (req : request) : Prop :=
  forall e,
    response w req = Throw e ->
    let before := Lecture.persisted d (removelast (updates w req)) in
    let after := final d w req in
    Lecture.status after = Lecture.error
    /\ Lecture.errorMessage after = e
    /\ unchanged_elsewhere before after
    /\ Lecture.updatedAt after = Lecture.updatedAt before.

Example updatedAt_around_the_error_update :
  Lecture.updatedAt
    (Lecture.persisted fresh_lecture
       (removelast (updates unreadable_pdf (upload_of "pdf"))))
  = 1700000001000
  /\ Lecture.updatedAt (final fresh_lecture unreadable_pdf (upload_of "pdf"))
     = 1700000002000.
Proof. split; reflexivity. Qed.

(** C9, as stated, fails: the schema has [timestamps: true], so the error
    update is stamped like every other update.  In the run of a PDF the
    parser rejects, with the clock one second further at each update,
    [updatedAt] is 1700000001000 before the error update and 1700000002000
    after it. *)
Lemma error_update_moves_updatedAt :
  ~ error_update_changes_nothing_else
      fresh_lecture unreadable_pdf (upload_of "pdf").
Proof.
  intros H.
  destruct (H (lit "Failed to process PDF file") eq_refl) as (_ & _ & _ & Hu).
  vm_compute in Hu. discriminate Hu.
Qed.

(** C9, amended: when an exception reaches the catch block, the last update
    of the run names the status and the error message only, and the store
    adds the [updatedAt] stamp to it.  After it the status is [error], the
    error message is the message of the exception, [updatedAt] is the time of
    that update, and every other path of the document, the progress among
    them, is as the update before left it. *)
Theorem error_update_frame
        (d : Lecture.lecture) (w : world) (req : request) (e : jsstring) :
  response w req = Throw e ->
  let before := Lecture.persisted d (removelast (updates w req)) in
  let after := final d w req in
  let k := List.length (removelast (updates w req)) in
  last (updates w req) []
  = error_update e ++ [Lecture.Set_updatedAt (now w k)]
  /\ Lecture.status after = Lecture.error
  /\ Lecture.errorMessage after = e
  /\ Lecture.updatedAt after = now w k
  /\ Lecture.processingProgress after = Lecture.processingProgress before
  /\ unchanged_elsewhere before after.
Proof.
  intros Hr. unfold final.
  destruct (run_updates w req) as (pre & u & -> & _ & Hu).
  rewrite Hr in Hu. subst u.
  rewrite removelast_last, last_last, persisted_snoc. cbv zeta.
  unfold unchanged_elsewhere. repeat split.
Qed.

Lemma error_update_frame_witness :
  response unreadable_pdf (upload_of "pdf") = Throw (lit "Failed to process PDF file")
  /\ (let before :=
        Lecture.persisted fresh_lecture
          (removelast (updates unreadable_pdf (upload_of "pdf"))) in
      let after := final fresh_lecture unreadable_pdf (upload_of "pdf") in
      let k := List.length (removelast (updates unreadable_pdf (upload_of "pdf"))) in
      last (updates unreadable_pdf (upload_of "pdf")) []
      = error_update (lit "Failed to process PDF file")
          ++ [Lecture.Set_updatedAt (now unreadable_pdf k)]
      /\ Lecture.status after = Lecture.error
      /\ Lecture.errorMessage after = lit "Failed to process PDF file"
      /\ Lecture.updatedAt after = now unreadable_pdf k
      /\ Lecture.processingProgress after = Lecture.processingProgress before
      /\ unchanged_elsewhere before after).
Proof.
  split; [reflexivity|].
  apply error_update_frame. reflexivity.
Defined.

Example progress_kept_on_error :
  Lecture.processingProgress (final fresh_lecture unreadable_pdf (upload_of "pdf"))
  = 20.
Proof. reflexivity. Qed.

(** *** Completed and failed runs *)

Lemma response_completed w req processedSlides :
  response w req = Ok processedSlides ->
  exists location slides,
    s3_upload w = Ok location /\ extract w req = Ok slides
    /\ loop_outcome w (body_language req) 0 slides
       = (Ok processedSlides, List.length slides).
Proof.
  intros Hr. pose proof (run_has_shape w req) as H. rewrite Hr in H.
  inversion H; subst. eauto.
Qed.

Lemma final_completed d w req processedSlides :
  response w req = Ok processedSlides ->
  Lecture.status (final d w req) = Lecture.ready
  /\ Lecture.slides (final d w req) = processedSlides
  /\ Lecture.processingProgress (final d w req) = 100
  /\ Lecture.totalDuration (final d w req) = sum_durations processedSlides
  /\ Lecture.metadata_slideCount (final d w req)
     = Z.of_nat (List.length processedSlides).
Proof.
  intros Hr. unfold final.
  destruct (run_updates w req) as (pre & u & -> & _ & Hu).
  rewrite Hr in Hu. subst u. rewrite persisted_snoc. repeat split.
Qed.

Lemma final_failed d w req e :
  response w req = Throw e ->
  Lecture.status (final d w req) = Lecture.error
  /\ Lecture.errorMessage (final d w req) = e.
Proof.
  intros Hr. unfold final.
  destruct (run_updates w req) as (pre & u & -> & _ & Hu).
  rewrite Hr in Hu. subst u. rewrite persisted_snoc. split; reflexivity.
Qed.

Lemma ready_completed d w req :
  Lecture.status (final d w req) = Lecture.ready ->
  exists processedSlides, response w req = Ok processedSlides.
Proof.
  intros Hs. destruct (response w req) as [ps|e] eqn:Hr; eauto.
  destruct (final_failed d w req Hr) as [He _]. congruence.
Qed.

(** The slides a completed loop pushes, one per extracted slide. *)
Lemma loop_outcome_pushed w language todo :
  forall i pushed k,
    loop_outcome w language i todo = (Ok pushed, k) ->
    forall j s,
      nth_error pushed j = Some s ->
      exists x audioUrl,
        nth_error todo j = Some x
        /\ audio_of w language (i + j) x = Ok audioUrl
        /\ s = processed_slide w language (i + j) x audioUrl.
Proof.
  induction todo as [|x rest IH]; intros i pushed k; simpl.
  - intros [= <- <-] [|j] s; discriminate.
  - destruct (audio_of w language i x) as [audioUrl|e] eqn:Ha; [|discriminate].
    destruct (loop_outcome w language (S i) rest) as [[pushed'|e] k'] eqn:Hl;
      [|discriminate].
    intros [= <- <-] [|j] s Hn; simpl in Hn.
    + inversion Hn; subst. exists x, audioUrl. rewrite Nat.add_0_r. auto.
    + destruct (IH _ _ _ Hl _ _ Hn) as (y & url & H1 & H2 & H3).
      exists y, url. rewrite Nat.add_succ_r. auto.
Qed.

(** The loop stops with an exception as soon as a synthesis throws. *)
Lemma loop_outcome_throws w language todo :
  forall i j x e,
    nth_error todo j = Some x ->
    audio_of w language (i + j) x = Throw e ->
    exists k,
      loop_outcome w language i todo = (Throw (lit "Failed to generate speech"), k)
      /\ (k <= j)%nat.
Proof.
  induction todo as [|y rest IH]; intros i [|j] x e Hn Ha; simpl in Hn;
    try discriminate.
  - inversion Hn; subst. rewrite Nat.add_0_r in Ha. simpl. rewrite Ha.
    unfold audio_of in Ha. apply generateSpeech_message in Ha. subst e.
    exists 0%nat. auto.
  - rewrite Nat.add_succ_r in Ha. simpl.
    destruct (audio_of w language i y) as [url|e0] eqn:Hy.
    + destruct (IH (S i) j x e Hn Ha) as (k & -> & Hk).
      exists (S k). split; auto. lia.
    + unfold audio_of in Hy. apply generateSpeech_message in Hy. subst e0.
      exists 0%nat. split; auto. lia.
Qed.

Lemma sum_durations_zero processedSlides :
  Forall (fun s => Lecture.duration s = 0) processedSlides ->
  sum_durations processedSlides = 0.
Proof.
  unfold sum_durations. intros H.
  assert (G : forall acc,
             fold_left (fun sum slide => sum + Lecture.duration slide)
                       processedSlides acc = acc).
  { induction H as [|s l Hs _ IH]; intros acc; simpl; auto.
    rewrite Hs, Z.add_0_r. apply IH. }
  apply G.
Qed.

(** *** Persisted scripts *)

(** The provider answers with a refusal. *)
Definition refusal_world : world :=
  with_chat (working_world [])
            (fun _ => AiService.Content (lit "I'm sorry, but I can't help with that.")).

(** What C2 says of one run: each script of a lecture that is [ready]
    passes the validation or is the fallback script of its slide. *)
Definition scripts_valid_or_fallback
           (d : Lecture.lecture) (w : world) (req : request) : Prop :=
  Lecture.status (final d w req) = Lecture.ready ->
  Forall (fun s =>
            AiService.validateGeneratedContent (Lecture.aiScript s) = true
            \/ Lecture.aiScript s
               = AiService.generateFallbackContent
                   (Lecture.content s) (body_language req))
         (Lecture.slides (final d w req)).

Example refusal_script_persisted :
  map Lecture.aiScript
      (Lecture.slides (final fresh_lecture refusal_world (upload_of "pptx")))
  = [lit "I'm sorry, but I can't help with that."].
Proof. reflexivity. Qed.

(** C2, as stated, fails: when the provider returns a short refusal, the
    route persists it as the script of the slide of a [ready] lecture,
    although the validation rejects it and it is not the fallback script. *)
Lemma refusal_persisted_as_final :
  ~ scripts_valid_or_fallback fresh_lecture refusal_world (upload_of "pptx").
Proof.
  intros H. specialize (H eq_refl). vm_compute in H.
  inversion H as [|s l [Hv|Hf] _]; discriminate.
Qed.

(** C2, amended: the script persisted for the slide at index [j] of a
    [ready] lecture is what [generateLectureContent] returned for it: the
    cleaned content of the provider, persisted without validation, or, when
    the call threw, the fallback script of the slide, which passes the
    validation. *)
Theorem persisted_script_source
        (d : Lecture.lecture) (w : world) (req : request)
        (j : nat) (s : Lecture.slide) :
  Lecture.status (final d w req) = Lecture.ready ->
  nth_error (Lecture.slides (final d w req)) j = Some s ->
  match chat w j with
  | AiService.Content generatedContent =>
      Lecture.aiScript s = AiService.cleanGeneratedContent generatedContent
  | AiService.Threw =>
      Lecture.aiScript s
      = AiService.generateFallbackContent (Lecture.content s) (body_language req)
      /\ AiService.validateGeneratedContent (Lecture.aiScript s) = true
  end.
Proof.
  intros Hs Hn.
  destruct (ready_completed d w req Hs) as (ps & Hr).
  destruct (final_completed d w req Hr) as (_ & Hsl & _).
  rewrite Hsl in Hn.
  destruct (response_completed w req Hr) as (loc & slides & _ & _ & Hl).
  destruct (loop_outcome_pushed _ _ _ _ Hl _ Hn) as (x & url & _ & _ & ->).
  simpl. unfold script_of, AiService.generateLectureContent.
  destruct (chat w j); [reflexivity|].
  split; [reflexivity|]. apply FallbackFacts.fallback_is_valid.
Qed.

(** The chat provider throws for every slide. *)
Definition chat_down : world :=
  with_chat (working_world []) (fun _ => AiService.Threw).

Lemma persisted_script_source_witness :
  let s :=
    processed_slide chat_down (lit "english") 0
      {| FileProcessor.ex_content := lit "Slide content extracted from PPTX";
         FileProcessor.ex_imageUrl := lit "https://bucket.s3.amazonaws.com/slides/slide.png" |}
      audio_location in
  Lecture.status (final fresh_lecture chat_down (upload_of "pptx")) = Lecture.ready
  /\ nth_error (Lecture.slides (final fresh_lecture chat_down (upload_of "pptx"))) 0
     = Some s
  /\ Lecture.aiScript s
     = AiService.generateFallbackContent
         (Lecture.content s) (body_language (upload_of "pptx"))
  /\ AiService.validateGeneratedContent (Lecture.aiScript s) = true.
Proof.
  intros s. split; [reflexivity|]. split; [reflexivity|].
  exact (persisted_script_source fresh_lecture chat_down (upload_of "pptx") 0
           eq_refl eq_refl).
Defined.

(** *** Failed synthesis *)

(** The speech provider, called for the slide at index [j], throws. *)
Definition synthesis_throws (w : world) (req : request)
           (slides : list FileProcessor.extracted) (j : nat) : Prop :=
  exists x e,
    nth_error slides j = Some x
    /\ speech w j (TtsService.voice_of (body_language req))
         (TtsService.prepareTextForTTS
            (script_of w (body_language req) j x) (body_language req))
       = Throw e.

Lemma run_synthesis_failed w req location slides e k :
  s3_upload w = Ok location ->
  extract w req = Ok slides ->
  loop_outcome w (body_language req) 0 slides = (Throw e, k) ->
  run w req
  = (Throw e,
     ([stamped w 0 (accepted_update req); stamped w 1 (stored_update location);
        stamped w 2 (skeleton_update slides)]
        ++ progress_updates w (Z.of_nat (List.length slides)) 0 k)
       ++ [stamped w (3 + k) (error_update e)]).
Proof.
  intros H1 H2 H3.
  destruct (run_cases w req) as (r & us & -> & H).
  destruct H; congruence.
Qed.

(** What C1 says of one run: a synthesis that throws for a slide does not
    keep the lecture from being [ready] with all its slides. *)
Definition survives_synthesis_failure
           (d : Lecture.lecture) (w : world) (req : request) : Prop :=
  forall slides j,
    extract w req = Ok slides ->
    synthesis_throws w req slides j ->
    Lecture.status (final d w req) = Lecture.ready
    /\ List.length (Lecture.slides (final d w req)) = List.length slides.

(** Scenario D: two slides, the synthesis throws for the first. *)
Definition scenario_d : world :=
  with_speech (working_world two_paragraphs) first_speech_fails.

(** The two slides extracted from [two_paragraphs]. *)
Definition slides_of_two_paragraphs (w : world) : list FileProcessor.extracted :=
  FileProcessor.slides_of_pages (render w) 0 (FileProcessor.pages_of two_paragraphs).

Example scenario_d_final :
  Lecture.status (final fresh_lecture scenario_d (upload_of "pdf")) = Lecture.error
  /\ Lecture.errorMessage (final fresh_lecture scenario_d (upload_of "pdf"))
     = lit "Failed to generate speech"
  /\ Lecture.processingProgress (final fresh_lecture scenario_d (upload_of "pdf")) = 40
  /\ map Lecture.aiScript
         (Lecture.slides (final fresh_lecture scenario_d (upload_of "pdf")))
     = [[]; []].
Proof. repeat split. Qed.

(** C1, as stated, fails: in scenario D the exception of [generateSpeech]
    reaches the catch block of the route, and the lecture ends in [error],
    not [ready]. *)
Lemma synthesis_failure_aborts_scenario_d :
  ~ survives_synthesis_failure fresh_lecture scenario_d (upload_of "pdf").
Proof.
  intros H.
  assert (Ht : synthesis_throws scenario_d (upload_of "pdf")
                 (slides_of_two_paragraphs scenario_d) 0).
  { do 2 eexists. split; reflexivity. }
  destruct (H _ 0%nat eq_refl Ht) as [Hs _].
  vm_compute in Hs. discriminate Hs.
Qed.

(** What [generateSpeechBatch] returns for one item. *)
Definition recovered (language : jsstring) (tts : TtsService.synthesizer)
           (text : TtsService.text_item) (item : TtsService.batch_item) : Prop :=
  TtsService.bi_slideNumber item = TtsService.ti_slideNumber text
  /\ TtsService.bi_content item = TtsService.ti_content text
  /\ match tts (TtsService.voice_of language)
             (TtsService.prepareTextForTTS (TtsService.ti_content text) language) with
     | Ok location =>
         TtsService.bi_audioUrl item = Some location
         /\ TtsService.bi_error item = None
     | Throw _ =>
         TtsService.bi_audioUrl item = None
         /\ TtsService.bi_error item = Some (lit "Failed to generate speech")
     end.

Lemma generateSpeechBatch_from_items tts language texts :
  forall i j text,
    nth_error texts j = Some text ->
    exists item,
      nth_error (TtsService.generateSpeechBatch_from tts i texts language) j
      = Some item
      /\ recovered language (tts (i + j)%nat) text item.
Proof.
  induction texts as [|t rest IH]; intros i [|j] text Hn; simpl in Hn;
    try discriminate.
  - inversion Hn; subst. rewrite Nat.add_0_r. simpl.
    eexists; split; [reflexivity|].
    unfold recovered, TtsService.generateSpeech.
    destruct (tts i _ _); simpl; auto.
  - rewrite Nat.add_succ_r. simpl. apply (IH (S i) j text Hn).
Qed.

Lemma length_generateSpeechBatch_from tts language texts :
  forall i,
    List.length (TtsService.generateSpeechBatch_from tts i texts language)
    = List.length texts.
Proof.
  induction texts as [|t rest IH]; intros i; simpl; auto.
Qed.

(** C1, amended: when the synthesis throws for a slide of a run whose file
    was stored and extracted, [generateSpeech] throws, the response is the
    failure with the message Failed to generate speech, the lecture ends in
    [error] with that message, and the slides it keeps are the skeletons
    persisted before the loop.  The recovery per item, a null audio
    reference with the error message and the other items still processed,
    is what [generateSpeechBatch] does, which the route does not call. *)
Theorem synthesis_failure_aborts_run
        (d : Lecture.lecture) (w : world) (req : request)
        (location : jsstring) (slides : list FileProcessor.extracted) (j : nat) :
  s3_upload w = Ok location ->
  extract w req = Ok slides ->
  synthesis_throws w req slides j ->
  (response w req = Throw (lit "Failed to generate speech")
   /\ Lecture.status (final d w req) = Lecture.error
   /\ Lecture.errorMessage (final d w req) = lit "Failed to generate speech"
   /\ Lecture.slides (final d w req) = skeletons_from 0 slides)
  /\ (forall tts language texts,
         List.length (TtsService.generateSpeechBatch tts texts language)
         = List.length texts
         /\ forall i text,
             nth_error texts i = Some text ->
             exists item,
               nth_error (TtsService.generateSpeechBatch tts texts language) i
               = Some item
               /\ recovered language (tts i) text item).
Proof.
  intros Hup Hex (x & e & Hn & Ht). split.
  - assert (Ha : audio_of w (body_language req) (0 + j) x
                 = Throw (lit "Failed to generate speech")).
    { unfold audio_of, TtsService.generateSpeech. simpl plus. rewrite Ht.
      reflexivity. }
    destruct (loop_outcome_throws w (body_language req) slides 0 j Hn Ha)
      as (k & Hl & _).
    pose proof (run_synthesis_failed w req Hup Hex Hl) as Hrun.
    assert (Hr : response w req = Throw (lit "Failed to generate speech"))
      by (unfold response; rewrite Hrun; reflexivity).
    destruct (final_failed d w req Hr) as [Hs He].
    repeat split; auto.
    unfold final, updates. rewrite Hrun. cbn [snd].
    rewrite persisted_snoc, persisted_app.
    rewrite update_keeps by (repeat constructor).
    rewrite persisted_keeps
      by (apply progress_updates_keep; intros v; split; intros d'; reflexivity).
    reflexivity.
  - intros tts language texts. split.
    + apply length_generateSpeechBatch_from.
    + intros i text Hi.
      apply (generateSpeechBatch_from_items tts language texts 0 i Hi).
Qed.

Lemma synthesis_failure_aborts_run_witness :
  s3_upload scenario_d = Ok (lit "https://bucket.s3.amazonaws.com/lectures/1/cells")
  /\ extract scenario_d (upload_of "pdf") = Ok (slides_of_two_paragraphs scenario_d)
  /\ synthesis_throws scenario_d (upload_of "pdf") (slides_of_two_paragraphs scenario_d) 0
  /\ response scenario_d (upload_of "pdf") = Throw (lit "Failed to generate speech")
  /\ Lecture.status (final fresh_lecture scenario_d (upload_of "pdf")) = Lecture.error
  /\ Lecture.errorMessage (final fresh_lecture scenario_d (upload_of "pdf"))
     = lit "Failed to generate speech"
  /\ Lecture.slides (final fresh_lecture scenario_d (upload_of "pdf"))
     = skeletons_from 0 (slides_of_two_paragraphs scenario_d).
Proof.
  assert (Ht : synthesis_throws scenario_d (upload_of "pdf")
                 (slides_of_two_paragraphs scenario_d) 0).
  { do 2 eexists. split; reflexivity. }
  split; [reflexivity|]. split; [reflexivity|]. split; [exact Ht|].
  exact (proj1 (@synthesis_failure_aborts_run fresh_lecture scenario_d
                  (upload_of "pdf") _ _ 0%nat eq_refl eq_refl Ht)).
Defined.

(** Scenario D with the batch function: the first item carries no audio and
    the message, the second is synthesized. *)
Example batch_scenario_d :
  map (fun item => (TtsService.bi_slideNumber item, TtsService.bi_audioUrl item,
                    TtsService.bi_error item))
      (TtsService.generateSpeechBatch first_speech_fails
         [ {| TtsService.ti_slideNumber := 1; TtsService.ti_content := good_script |};
           {| TtsService.ti_slideNumber := 2; TtsService.ti_content := good_script |} ]
         (lit "english"))
  = [ (1, None, Some (lit "Failed to generate speech"));
      (2, Some audio_location, None) ].
Proof. reflexivity. Qed.

(** *** Extraction without slides *)

(** What C4 says of one run: the extraction gives at least one slide unless
    it throws, and a lecture that is [ready] has at least one slide. *)
Definition extraction_never_empty
           (d : Lecture.lecture) (w : world) (req : request) : Prop :=
  match extract w req with
  | Ok slides => slides <> []
  | Throw _ => True
  end
  /\ (Lecture.status (final d w req) = Lecture.ready ->
      Lecture.slides (final d w req) <> []).

(** A PDF whose whole text is two letters. *)
Definition short_document : jsstring := lit "Hi".

Example short_document_run :
  extract (working_world short_document) (upload_of "pdf") = Ok []
  /\ Lecture.status (final fresh_lecture (working_world short_document) (upload_of "pdf"))
     = Lecture.ready
  /\ Lecture.slides (final fresh_lecture (working_world short_document) (upload_of "pdf"))
     = [].
Proof. repeat split. Qed.

(** C4, as stated, fails: for a PDF whose only paragraph has two letters
    [processPDF] returns no slide and throws nothing, and the run ends
    [ready] with zero slides. *)
Lemma ready_with_zero_slides :
  ~ extraction_never_empty
      fresh_lecture (working_world short_document) (upload_of "pdf").
Proof.
  intros [_ H]. apply (H eq_refl). reflexivity.
Qed.

Lemma slides_of_pages_short render pages :
  forall i,
    Forall (fun page => (jslength (trim page) <= 10)) pages ->
    FileProcessor.slides_of_pages render i pages = [].
Proof.
  induction pages as [|page rest IH]; intros i H; simpl; auto.
  inversion H as [|? ? Hp Hr]; subst.
  destruct (Z.ltb_spec 10 (jslength (trim page))); [lia|]. now apply IH.
Qed.

(** A parsed PDF whose paragraphs all have at most ten characters once
    trimmed gives no slide and no exception. *)
Lemma short_pdf_extracts_nothing w req text :
  fileType req = lit "pdf" ->
  pdf_parse w = Ok text ->
  Forall (fun page => (jslength (trim page) <= 10)) (FileProcessor.pages_of text) ->
  extract w req = Ok [].
Proof.
  intros Ht Hp Hs. unfold extract, FileProcessor.processPDF. rewrite Ht, Hp.
  simpl. now rewrite slides_of_pages_short.
Qed.


(** C4, amended: when the file is stored and the extraction returns zero
    slides without throwing, the run is not aborted: it completes, and the
    lecture is [ready] with zero slides, slide count 0, total duration 0 and
    progress 100. *)
Theorem empty_extraction_completes
        (d : Lecture.lecture) (w : world) (req : request) (location : jsstring) :
  s3_upload w = Ok location ->
  extract w req = Ok [] ->
  response w req = Ok []
  /\ Lecture.status (final d w req) = Lecture.ready
  /\ Lecture.slides (final d w req) = []
  /\ Lecture.metadata_slideCount (final d w req) = 0
  /\ Lecture.totalDuration (final d w req) = 0
  /\ Lecture.processingProgress (final d w req) = 100.
Proof.
  intros Hup Hex.
  assert (Hr : response w req = Ok []).
  { pose proof (run_has_shape w req) as H.
    destruct H as [e H|loc e H1 H2|loc slides e k H1 H2 H3|loc slides ps H1 H2 H3];
      try congruence.
    - assert (slides = []) by congruence. subst. simpl in H3. discriminate.
    - assert (slides = []) by congruence. subst. simpl in H3. congruence. }
  destruct (final_completed d w req Hr) as (H1 & H2 & H3 & H4 & H5).
  repeat split; auto.
Qed.

Lemma empty_extraction_completes_witness :
  s3_upload (working_world short_document)
  = Ok (lit "https://bucket.s3.amazonaws.com/lectures/1/cells")
  /\ extract (working_world short_document) (upload_of "pdf") = Ok []
  /\ response (working_world short_document) (upload_of "pdf") = Ok []
  /\ Lecture.status (final fresh_lecture (working_world short_document) (upload_of "pdf"))
     = Lecture.ready
  /\ Lecture.slides (final fresh_lecture (working_world short_document) (upload_of "pdf"))
     = []
  /\ Lecture.metadata_slideCount
       (final fresh_lecture (working_world short_document) (upload_of "pdf")) = 0
  /\ Lecture.totalDuration
       (final fresh_lecture (working_world short_document) (upload_of "pdf")) = 0
  /\ Lecture.processingProgress
       (final fresh_lecture (working_world short_document) (upload_of "pdf")) = 100.
Proof.
  split; [reflexivity|]. split; [reflexivity|].
  exact (@empty_extraction_completes fresh_lecture (working_world short_document)
           (upload_of "pdf") _ eq_refl eq_refl).
Defined.

(** *** Durations *)

(** In a lecture that is [ready] every slide has the duration 0 the route
    writes, and the total duration is their sum, 0. *)
Lemma completed_durations d w req :
  Lecture.status (final d w req) = Lecture.ready ->
  Forall (fun s => Lecture.duration s = 0) (Lecture.slides (final d w req))
  /\ Lecture.totalDuration (final d w req)
     = sum_durations (Lecture.slides (final d w req))
  /\ Lecture.totalDuration (final d w req) = 0.
Proof.
  intros Hs.
  destruct (ready_completed d w req Hs) as (ps & Hr).
  destruct (final_completed d w req Hr) as (_ & Hsl & _ & Htd & _).
  destruct (response_completed w req Hr) as (loc & slides & _ & _ & Hl).
  assert (Hz : Forall (fun s => Lecture.duration s = 0) ps).
  { apply Forall_forall. intros s Hin. apply In_nth_error in Hin.
    destruct Hin as (j & Hj).
    destruct (loop_outcome_pushed _ _ _ _ Hl _ Hj) as (x & url & _ & _ & ->).
    reflexivity. }
  rewrite Hsl, Htd. repeat split; auto. now apply sum_durations_zero.
Qed.

(** C7: in the run of a two-paragraph PDF where both syntheses succeed,
    each slide gets its audio location, but the duration recorded for each
    is the constant 0 of the route, not a measure or an estimate of the
    audio, and the total duration is 0. *)
Theorem recorded_durations_are_zero :
  let f := final fresh_lecture (working_world two_paragraphs) (upload_of "pdf") in
  Lecture.status f = Lecture.ready
  /\ map Lecture.audioUrl (Lecture.slides f) = [audio_location; audio_location]
  /\ map Lecture.duration (Lecture.slides f) = [0; 0]
  /\ Lecture.totalDuration f = 0.
Proof. repeat split. Qed.

End PipelineFacts.

(* ===================================================================== *)
(** * Further properties of the services *)
(* ===================================================================== *)

Module ScriptProperties.

Import JsString JsStringFacts JsObject AiService CleaningFacts FallbackFacts.
Local Open Scope N_scope.

(** X1: a cleaned script has no white space at either end, its only white
    space characters are single spaces with no two of them adjacent, it has
    no line break, and it is not longer than the content it was made from. *)
Theorem cleaned_normal_form (content : jsstring) :
  starts_with is_space (cleanGeneratedContent content) = false
  /\ ends_with is_space (cleanGeneratedContent content) = false
  /\ single_spaced is_space SPACE (cleanGeneratedContent content)
  /\ Forall (fun c => is_newline c = false) (cleanGeneratedContent content)
  /\ (List.length (cleanGeneratedContent content) <= List.length content)%nat.
Proof.
  pose proof (cleaned_single_spaced content) as Hsp.
  repeat split; auto.
  - apply trim_no_lead.
  - apply trim_no_trail.
  - apply single_spaced_class with (p := is_space) (r := SPACE); auto.
    apply newline_is_space.
  - pose proof (length_cleanGeneratedContent content).
    unfold strip_both_ends in *.
    pose proof (proj1 (length_strip_leading is_quote content)).
    pose proof (proj1 (length_strip_trailing is_quote (strip_leading is_quote content))).
    lia.
Qed.

(** X2: when a cleaned script still starts or ends with a quotation mark,
    cleaning it once more gives a different, shorter script. *)
Theorem second_cleaning_strips_quotes (content : jsstring) :
  starts_with is_quote (cleanGeneratedContent content) = true
  \/ ends_with is_quote (cleanGeneratedContent content) = true ->
  cleanGeneratedContent (cleanGeneratedContent content)
  <> cleanGeneratedContent content
  /\ (List.length (cleanGeneratedContent (cleanGeneratedContent content))
      < List.length (cleanGeneratedContent content))%nat.
Proof.
  intros H. split; [now apply cleanGeneratedContent_strips_again|].
  set (t := cleanGeneratedContent content) in *.
  pose proof (length_cleanGeneratedContent t) as Hl.
  unfold strip_both_ends in Hl.
  pose proof (length_strip_leading is_quote t) as [L1 L2].
  pose proof (length_strip_trailing is_quote (strip_leading is_quote t)) as [T1 T2].
  destruct (starts_with is_quote t) eqn:Hs.
  - specialize (L2 eq_refl). lia.
  - destruct H as [H|H]; [discriminate|].
    rewrite (strip_leading_fixed _ _ Hs) in *.
    specialize (T2 H). lia.
Qed.

Lemma second_cleaning_strips_quotes_witness :
  (starts_with is_quote (cleanGeneratedContent (lit " 'Quoted inside spaces' ")) = true
   \/ ends_with is_quote (cleanGeneratedContent (lit " 'Quoted inside spaces' ")) = true)
  /\ cleanGeneratedContent (cleanGeneratedContent (lit " 'Quoted inside spaces' "))
     <> cleanGeneratedContent (lit " 'Quoted inside spaces' ")
  /\ (List.length
        (cleanGeneratedContent (cleanGeneratedContent (lit " 'Quoted inside spaces' ")))
      < List.length (cleanGeneratedContent (lit " 'Quoted inside spaces' ")))%nat.
Proof.
  split; [left; reflexivity|].
  apply second_cleaning_strips_quotes. left; reflexivity.
Defined.

(** X3: whatever the slide text and the language, the fallback script has
    between 218 and 454 characters and passes [validateGeneratedContent]. *)
Theorem fallback_valid_and_bounded (slideContent language : jsstring) :
  validateGeneratedContent (generateFallbackContent slideContent language) = true
  /\ (218 <= jslength (generateFallbackContent slideContent language) <= 454)%Z.
Proof.
  split; [apply fallback_is_valid|].
  unfold generateFallbackContent.
  pose proof (greeting_in_texts language) as Hin.
  pose proof greeting_texts_fit as HF. rewrite Forall_forall in HF.
  destruct (HF _ Hin) as (_ & _ & Hlen).
  unfold jslength, substring0. rewrite !length_app, length_firstn.
  change (List.length fallback_middle) with 50%nat.
  change (List.length fallback_tail) with 155%nat. lia.
Qed.

Lemma english_own : own languageGreetings (lit "english") = Some (lit "Hello everyone,").
Proof. reflexivity. Qed.

(** X4: the greeting of the fallback is the English one exactly for the
    language [english] and for the languages that are neither a key of the
    greeting table nor a name defined by [Object.prototype]. *)
Theorem english_greeting_exactly (language : jsstring) :
  to_string (greeting_of language) = lit "Hello everyone,"
  <-> language = lit "english"
      \/ (own languageGreetings language = None /\ inherited language = Undefined).
Proof.
  split.
  - intros H. unfold greeting_of, get in H.
    destruct (own languageGreetings language) as [v|] eqn:Ho.
    + left. pose proof (own_In _ _ Ho) as Hin. simpl in Hin.
      assert (Ht : truthy (Str v) = true).
      { repeat (destruct Hin as [[= _ <-] | Hin]; [reflexivity|]). destruct Hin. }
      unfold or_else in H. rewrite Ht in H. simpl in H. subst v.
      repeat (destruct Hin as [Hin | Hin];
              [ (inversion Hin; fail) || (now inversion Hin) |]).
      destruct Hin.
    + right. split; auto. unfold inherited in *.
      destruct (jseqb language (lit "constructor")); [discriminate H|].
      destruct (jseqb language (lit "__proto__")); [discriminate H|].
      destruct (existsb (jseqb language) prototype_methods); [|reflexivity].
      unfold or_else in H. simpl in H. discriminate H.
  - intros [-> | [Ho Hi]]; [reflexivity|].
    rewrite (greeting_of_unknown _ Ho Hi). reflexivity.
Qed.

Lemma ascii_upper_idempotent c : ascii_upper (ascii_upper c) = ascii_upper c.
Proof.
  unfold ascii_upper, in_range.
  destruct ((97 <=? c) && (c <=? 122)) eqn:E.
  - apply andb_true_iff in E. destruct E as [E1 E2].
    apply N.leb_le in E1. apply N.leb_le in E2.
    destruct (N.leb_spec 97 (c - 32)); [lia|]. reflexivity.
  - rewrite E. reflexivity.
Qed.

Lemma test_prefix_ci_upper pattern : forall s,
  test_prefix_ci pattern (map ascii_upper s) = test_prefix_ci pattern s.
Proof.
  induction pattern as [|a pattern IH]; intros [|c s]; simpl; auto.
  rewrite ascii_upper_idempotent, IH. reflexivity.
Qed.

Lemma test_prefix_ci_same_letters pattern : forall prefix rest,
  map ascii_upper prefix = map ascii_upper pattern ->
  test_prefix_ci pattern (prefix ++ rest) = true.
Proof.
  induction pattern as [|a pattern IH]; intros prefix rest H; [reflexivity|].
  destruct prefix as [|c prefix]; [discriminate H|].
  simpl in H. injection H as Hc Ht.
  simpl. rewrite Hc, N.eqb_refl. simpl. now apply IH.
Qed.

(** X5: the validation does not depend on the case of the ASCII letters of
    the script: a script and its upper-cased form are both accepted or both
    rejected; and a script that starts with the letters of one of the
    refusal patterns, in whatever mix of upper and lower case, is rejected
    whatever follows. *)
Theorem validation_ignores_case (content prefix rest pattern : jsstring) :
  validateGeneratedContent (map ascii_upper content)
  = validateGeneratedContent content
  /\ (In pattern problematicPatterns ->
      map ascii_upper prefix = map ascii_upper pattern ->
      validateGeneratedContent (prefix ++ rest) = false).
Proof.
  split.
  - unfold validateGeneratedContent.
    assert (Hl : jslength (map ascii_upper content) = jslength content)
      by (unfold jslength; now rewrite length_map).
    destruct content as [|c content]; [reflexivity|].
    rewrite Hl. change (ascii_upper c :: map ascii_upper content)
      with (map ascii_upper (c :: content)).
    destruct (jslength (c :: content) <? 50)%Z; auto.
    destruct (2000 <? jslength (c :: content))%Z; auto.
    assert (G : forall l,
               existsb (fun pattern =>
                          test_prefix_ci pattern (map ascii_upper (c :: content))) l
               = existsb (fun pattern => test_prefix_ci pattern (c :: content)) l).
    { induction l as [|p l IH]; cbn [existsb]; auto.
      rewrite IH. f_equal. apply (test_prefix_ci_upper p (c :: content)). }
    rewrite G. reflexivity.
  - intros Hin Hsame. unfold validateGeneratedContent.
    assert (He : existsb (fun p => test_prefix_ci p (prefix ++ rest))
                         problematicPatterns = true).
    { apply existsb_exists. exists pattern. split; [exact Hin|].
      now apply test_prefix_ci_same_letters. }
    destruct (prefix ++ rest) as [|c t]; [reflexivity|].
    destruct (jslength (c :: t) <? 50)%Z; [reflexivity|].
    destruct (2000 <? jslength (c :: t))%Z; [reflexivity|].
    rewrite He. reflexivity.
Qed.

(** A refusal in mixed case, long enough to pass the length test. *)
Definition shouted_refusal_rest : jsstring :=
  lit ", but the content of this slide is something I am unable to discuss.".

Lemma validation_ignores_case_witness :
  In (lit "I cannot") problematicPatterns
  /\ map ascii_upper (lit "i CanNOT") = map ascii_upper (lit "I cannot")
  /\ (50 <= jslength (lit "i CanNOT" ++ shouted_refusal_rest) <= 2000)%Z
  /\ validateGeneratedContent (lit "i CanNOT" ++ shouted_refusal_rest) = false.
Proof.
  assert (Hin : In (lit "I cannot") problematicPatterns)
    by (right; left; reflexivity).
  assert (Hs : map ascii_upper (lit "i CanNOT") = map ascii_upper (lit "I cannot"))
    by reflexivity.
  split; [exact Hin|]. split; [exact Hs|].
  split; [vm_compute; split; discriminate|].
  exact (proj2 (@validation_ignores_case [] (lit "i CanNOT") shouted_refusal_rest
                  (lit "I cannot")) Hin Hs).
Defined.

Lemma batch_from_numbers {T} (content : T -> jsstring) chat language slides :
  forall i,
    map si_slideNumber
        (generateLectureContentBatch_from content chat i slides language)
    = map (fun j => (Z.of_nat j + 1)%Z) (seq i (List.length slides))
    /\ map si_content
           (generateLectureContentBatch_from content chat i slides language)
       = map content slides.
Proof.
  induction slides as [|slide rest IH]; intros i; simpl; auto.
  destruct (IH (S i)) as [H1 H2]. rewrite H1, H2. auto.
Qed.

Lemma batch_from_scripts {T} (content : T -> jsstring) chat language slides :
  forall i j slide,
    nth_error slides j = Some slide ->
    exists item,
      nth_error (generateLectureContentBatch_from content chat i slides language) j
      = Some item
      /\ si_script item
         = generateLectureContent (content slide) language (chat (i + j)%nat).
Proof.
  induction slides as [|s rest IH]; intros i [|j] slide Hn; simpl in Hn;
    try discriminate.
  - inversion Hn; subst. rewrite Nat.add_0_r. simpl. eauto.
  - rewrite Nat.add_succ_r. simpl. apply (IH (S i) j slide Hn).
Qed.

(** X6: [generateLectureContentBatch] returns one item per slide, in the
    order of the slides, numbered 1, 2, .. and carrying the content of its
    slide; the script of the item at index [j] is what
    [generateLectureContent] gives for that slide and the [j]-th call alone,
    so a call that throws puts the fallback script on its own slide and
    drops or changes no other item. *)
Theorem content_batch_keeps_every_slide
        {T : Type} (content : T -> jsstring) (chat : nat -> completion)
        (slides : list T) (language : jsstring) :
  map si_slideNumber (generateLectureContentBatch content chat slides language)
  = map (fun j => (Z.of_nat j + 1)%Z) (seq 0 (List.length slides))
  /\ map si_content (generateLectureContentBatch content chat slides language)
     = map content slides
  /\ forall j slide,
       nth_error slides j = Some slide ->
       exists item,
         nth_error (generateLectureContentBatch content chat slides language) j
         = Some item
         /\ si_script item
            = generateLectureContent (content slide) language (chat j).
Proof.
  unfold generateLectureContentBatch.
  destruct (batch_from_numbers content chat language slides 0) as [H1 H2].
  repeat split; auto.
  intros j slide Hn.
  apply (batch_from_scripts content chat language slides 0 j Hn).
Qed.

End ScriptProperties.

Module SpeechProperties.

Import JsString JsStringFacts JsObject Exc TtsService TtsFacts.
Local Open Scope N_scope.

Lemma prepared_plain text language :
  Forall (fun c => is_plain c = true) (prepareTextForTTS text language)
  /\ prepareTextForTTS text language = limit_length (normalize_for_tts text).
Proof.
  pose proof (normalize_for_tts_plain text) as Hn.
  unfold prepareTextForTTS. rewrite (language_formatting_plain language Hn).
  split; auto. now apply limit_length_plain.
Qed.

(** X7: whatever the script, the speech provider is called with a text of
    at most 4003 characters, all of them ASCII and outside the removed
    class: two providers that agree on such texts give the same result of
    [generateSpeech]. *)
Theorem provider_input_within_limit
        (tts tts' : synthesizer) (text language : jsstring) :
  (forall voice input,
      (jslength input <= 4003)%Z ->
      Forall (fun c => is_tts_safe c = true /\ c < 128) input ->
      tts voice input = tts' voice input) ->
  generateSpeech tts text language = generateSpeech tts' text language.
Proof.
  intros H. unfold generateSpeech.
  destruct (prepared_plain text language) as [Hp He].
  rewrite (H (voice_of language) (prepareTextForTTS text language)); auto.
  - rewrite He. apply limit_length_bound.
  - eapply Forall_impl; [|exact Hp]. intros c Hc.
    split; [apply plain_is_safe | apply plain_is_ascii]; auto.
Qed.

(** A provider that refuses every text of more than 4096 characters. *)
Definition strict_provider : synthesizer :=
  fun _ input =>
    if (4096 <? jslength input)%Z then Throw (lit "input too long")
    else Ok (lit "https://bucket.s3.amazonaws.com/audio/a.mp3").

(** A provider that accepts every text. *)
Definition lenient_provider : synthesizer :=
  fun _ _ => Ok (lit "https://bucket.s3.amazonaws.com/audio/a.mp3").

Lemma provider_input_within_limit_witness :
  (forall voice input,
      (jslength input <= 4003)%Z ->
      Forall (fun c => is_tts_safe c = true /\ c < 128) input ->
      strict_provider voice input = lenient_provider voice input)
  /\ generateSpeech strict_provider (repeat 97 5000) (lit "english")
     = generateSpeech lenient_provider (repeat 97 5000) (lit "english").
Proof.
  assert (H : forall voice input,
             (jslength input <= 4003)%Z ->
             Forall (fun c => is_tts_safe c = true /\ c < 128) input ->
             strict_provider voice input = lenient_provider voice input).
  { intros voice input Hlen _. unfold strict_provider, lenient_provider.
    destruct (Z.ltb_spec 4096 (jslength input)); [lia | reflexivity]. }
  split; [exact H|].
  apply provider_input_within_limit. exact H.
Defined.

Lemma own_voice_In key v : own LANGUAGE_VOICES key = Some v ->
  In v (map lit ["alloy"; "echo"; "onyx"; "nova"; "shimmer"]%string).
Proof.
  intros H. apply FallbackFacts.own_In in H. simpl in H.
  repeat (destruct H as [[= _ <-] | H]; [simpl; tauto|]). destruct H.
Qed.

(** X8: for every language that is not a name defined by
    [Object.prototype], the voice is one of the five voice names of the
    table, and it is alloy when the language is not a key of the table. *)
Theorem voice_selection (language : jsstring) :
  inherited language = Undefined ->
  (exists v, voice_of language = Str v
             /\ In v (map lit ["alloy"; "echo"; "onyx"; "nova"; "shimmer"]%string))
  /\ (own LANGUAGE_VOICES language = None ->
      voice_of language = Str (lit "alloy")).
Proof.
  intros Hi. unfold voice_of, get.
  destruct (own LANGUAGE_VOICES language) as [v|] eqn:Ho.
  - pose proof (own_voice_In _ Ho) as Hin. split; [|discriminate].
    exists v. split; auto. unfold or_else.
    assert (Ht : truthy (Str v) = true).
    { simpl in Hin. repeat (destruct Hin as [<- | Hin]; [reflexivity|]).
      destruct Hin. }
    rewrite Ht. reflexivity.
  - rewrite Hi. split; [|reflexivity].
    exists (lit "alloy"). split; [reflexivity | simpl; tauto].
Qed.

Lemma voice_selection_witness :
  inherited (lit "italian") = Undefined
  /\ voice_of (lit "italian") = Str (lit "alloy").
Proof.
  split; [reflexivity|].
  exact (proj2 (voice_selection (lit "italian") eq_refl) eq_refl).
Defined.

Lemma speech_batch_from_maps tts language texts :
  forall i,
    map bi_slideNumber (generateSpeechBatch_from tts i texts language)
    = map ti_slideNumber texts
    /\ map bi_content (generateSpeechBatch_from tts i texts language)
       = map ti_content texts
    /\ Forall (fun item =>
                 (bi_audioUrl item = None
                  /\ bi_error item = Some (lit "Failed to generate speech"))
                 \/ (exists location,
                        bi_audioUrl item = Some location /\ bi_error item = None))
              (generateSpeechBatch_from tts i texts language).
Proof.
  induction texts as [|text rest IH]; intros i; simpl; auto.
  destruct (IH (S i)) as (H1 & H2 & H3).
  destruct (generateSpeech (tts i) (ti_content text) language)
    as [location|message] eqn:Hg;
    simpl; rewrite H1, H2; repeat split; auto; constructor; auto; simpl.
  - right. eauto.
  - left. apply PipelineFacts.generateSpeech_message in Hg. subst. auto.
Qed.

(** X9: [generateSpeechBatch] returns the slide numbers and the contents of
    its items unchanged and in order, whatever syntheses throw; every item
    has either an audio location and no error, or no audio and the message
    Failed to generate speech. *)
Theorem speech_batch_preserves_items
        (tts : nat -> synthesizer) (texts : list text_item) (language : jsstring) :
  map bi_slideNumber (generateSpeechBatch tts texts language)
  = map ti_slideNumber texts
  /\ map bi_content (generateSpeechBatch tts texts language)
     = map ti_content texts
  /\ Forall (fun item =>
               (bi_audioUrl item = None
                /\ bi_error item = Some (lit "Failed to generate speech"))
               \/ (exists location,
                      bi_audioUrl item = Some location /\ bi_error item = None))
            (generateSpeechBatch tts texts language).
Proof. apply speech_batch_from_maps. Qed.

(** *** The prepared text as a normal form *)

Lemma filter_fixed {A} (p : A -> bool) l :
  Forall (fun c => p c = true) l -> filter p l = l.
Proof.
  induction 1 as [|c l Hc _ IH]; simpl; auto. rewrite Hc, IH. reflexivity.
Qed.

Lemma starts_with_firstn p n s :
  starts_with p s = false -> starts_with p (firstn n s) = false.
Proof. destruct n, s; simpl; auto. Qed.

Lemma single_spaced_firstn p r s : forall n,
  single_spaced p r s -> single_spaced p r (firstn n s).
Proof.
  induction s as [|c s IH]; intros [|n]; simpl; auto.
  intros [H1 H2]. split; auto.
  intros Hc. destruct (H1 Hc) as [-> Hs]. split; auto.
  now apply starts_with_firstn.
Qed.

Lemma single_spaced_app p r a b :
  single_spaced p r a -> single_spaced p r b -> starts_with p b = false ->
  single_spaced p r (a ++ b).
Proof.
  intros Ha Hb Hs. induction a as [|c a IH]; simpl; auto.
  destruct Ha as [H1 H2]. split; auto.
  intros Hc. destruct (H1 Hc) as [-> Hs']. split; auto.
  destruct a; simpl in *; auto.
Qed.

Lemma ends_with_app p a b :
  b <> [] -> ends_with p (a ++ b) = ends_with p b.
Proof.
  intros Hb. induction a as [|c a IH]; auto.
  change ((c :: a) ++ b) with (c :: (a ++ b)).
  destruct (a ++ b) as [|d l] eqn:E.
  - destruct a, b; simpl in E; congruence.
  - simpl. exact IH.
Qed.

Lemma replace_runs_from_plain s : forall b,
  Forall (fun c => is_plain c = true) s ->
  Forall (fun c => is_plain c = true) (replace_runs_from is_space SPACE b s).
Proof.
  induction s as [|c s IH]; intros b H; simpl; auto.
  inversion H; subst.
  destruct (is_space c); [destruct b|]; auto.
Qed.

(** A text is in normal form when it is made of plain characters, has no
    white space at its ends and no two adjacent spaces. *)
Definition tts_normal (s : jsstring) : Prop :=
  Forall (fun c => is_plain c = true) s
  /\ single_spaced is_space SPACE s
  /\ starts_with is_space s = false
  /\ ends_with is_space s = false.

Lemma normalize_normal_fixed s : tts_normal s -> normalize_for_tts s = s.
Proof.
  intros (Hp & Hs & H1 & H2). unfold normalize_for_tts, replace_runs, remove_outside.
  rewrite (single_spaced_fixed _ _ _ Hs).
  rewrite filter_fixed
    by (eapply Forall_impl; [|exact Hp]; intros c; apply plain_is_safe).
  now apply trim_fixed.
Qed.

Lemma normalize_of_plain s :
  Forall (fun c => is_plain c = true) s -> tts_normal (normalize_for_tts s).
Proof.
  intros Hp. unfold tts_normal. split; [apply normalize_for_tts_plain|].
  unfold normalize_for_tts, replace_runs, remove_outside.
  rewrite filter_fixed.
  - split; [|split; [apply trim_no_lead | apply trim_no_trail]].
    unfold trim. apply single_spaced_trimEnd, single_spaced_trimStart.
    apply replace_runs_from_single_spaced. reflexivity.
  - eapply Forall_impl; [|apply (replace_runs_from_plain false Hp)].
    intros c; apply plain_is_safe.
Qed.

Lemma limit_length_normal s : tts_normal s -> tts_normal (limit_length s).
Proof.
  intros (Hp & Hs & H1 & H2). unfold tts_normal.
  split; [now apply limit_length_plain|].
  unfold limit_length. destruct (4000 <? jslength s)%Z; auto.
  unfold substring0. repeat split.
  - apply single_spaced_app; [now apply single_spaced_firstn | | reflexivity].
    simpl. repeat split; discriminate.
  - destruct s as [|c s]; [reflexivity|]. simpl. exact H1.
  - rewrite ends_with_app by discriminate. reflexivity.
Qed.

Lemma limit_length_idempotent s :
  limit_length (limit_length s) = limit_length s.
Proof.
  destruct (4000 <? jslength s)%Z eqn:E.
  - assert (Hl : limit_length s = firstn 4000 s ++ lit "...")
      by (unfold limit_length, substring0; now rewrite E).
    rewrite Hl. unfold limit_length, substring0, jslength.
    rewrite length_app, length_firstn.
    change (List.length (lit "...")) with 3%nat.
    apply Z.ltb_lt in E. unfold jslength in E.
    destruct (Z.ltb_spec 4000 (Z.of_nat (Nat.min 4000 (List.length s) + 3)));
      [|lia].
    rewrite firstn_app, length_firstn.
    replace (4000 - Nat.min 4000 (List.length s))%nat with 0%nat by lia.
    rewrite firstn_firstn, Nat.min_id.
    change (firstn 0 (lit "...")) with (@nil codeunit).
    rewrite app_nil_r. reflexivity.
  - assert (Hl : limit_length s = s) by (unfold limit_length; now rewrite E).
    rewrite Hl. exact Hl.
Qed.

Lemma prepare_of_plain s language :
  Forall (fun c => is_plain c = true) s ->
  tts_normal (prepareTextForTTS s language)
  /\ prepareTextForTTS s language = limit_length (normalize_for_tts s).
Proof.
  intros Hp. destruct (prepared_plain s language) as [_ He].
  rewrite He. split; auto.
  apply limit_length_normal, normalize_of_plain, Hp.
Qed.

(** X10: [prepareTextForTTS] settles after two applications, whatever the
    languages: the text prepared twice is left unchanged by a third
    preparation.  (One application is not enough: removing a character that
    stands between two spaces leaves the two spaces side by side, and the
    next application merges them.) *)
Theorem prepareTextForTTS_settles (text l1 l2 l3 : jsstring) :
  prepareTextForTTS (prepareTextForTTS (prepareTextForTTS text l1) l2) l3
  = prepareTextForTTS (prepareTextForTTS text l1) l2.
Proof.
  destruct (prepared_plain text l1) as [Hp1 _].
  set (o := prepareTextForTTS text l1) in *.
  destruct (prepare_of_plain l2 Hp1) as [Hn2 He2].
  assert (Hplain2 : Forall (fun c => is_plain c = true) (prepareTextForTTS o l2))
    by apply Hn2.
  destruct (prepare_of_plain l3 Hplain2) as [_ He3].
  rewrite He3, (normalize_normal_fixed Hn2), He2.
  apply limit_length_idempotent.
Qed.

Example prepare_once_is_not_enough :
  prepareTextForTTS (lit "price # list") (lit "english") = lit "price  list"
  /\ prepareTextForTTS (lit "price  list") (lit "english") = lit "price list".
Proof. split; reflexivity. Qed.

(** X11: the prepared text never starts or ends with white space, and its
    only white space character is the ASCII space. *)
Theorem prepared_text_is_trimmed (text language : jsstring) :
  starts_with is_space (prepareTextForTTS text language) = false
  /\ ends_with is_space (prepareTextForTTS text language) = false
  /\ Forall (fun c => is_space c = true -> c = SPACE)
            (prepareTextForTTS text language).
Proof.
  destruct (prepared_plain text language) as [Hp He].
  repeat split.
  - rewrite He. unfold limit_length, normalize_for_tts.
    destruct (4000 <? _)%Z; [|apply trim_no_lead].
    unfold substring0.
    pose proof (trim_no_lead
                  (remove_outside is_tts_safe (replace_runs is_space SPACE text))) as H.
    destruct (trim _) as [|c s]; [reflexivity | exact H].
  - rewrite He. unfold limit_length, normalize_for_tts.
    destruct (4000 <? _)%Z; [|apply trim_no_trail].
    rewrite ends_with_app by discriminate. reflexivity.
  - eapply Forall_impl; [|exact Hp]. intros c Hc Hs.
    unfold is_plain in Hc.
    destruct (N.eqb_spec c SPACE); auto.
    exfalso. revert Hc Hs. clear. split_classes. lia.
Qed.

(** *** Validation of the parameters *)

Lemma normalize_trimmed text :
  starts_with is_space (normalize_for_tts text) = false
  /\ ends_with is_space (normalize_for_tts text) = false.
Proof.
  unfold normalize_for_tts. split; [apply trim_no_lead | apply trim_no_trail].
Qed.

(** X12: [validateTTSParameters] accepts a text prepared by
    [prepareTextForTTS] exactly when the text is not empty once
    normalized, its normalized form has at most 4000 characters, and the
    language has a voice; a text that [prepareTextForTTS] had to cut, 4003
    characters long with its ellipsis, is rejected as too long. *)
Theorem prepared_text_validity (text language : jsstring) :
  isValid (validateTTSParameters (prepareTextForTTS text language) language) = true
  <-> normalize_for_tts text <> []
      /\ (jslength (normalize_for_tts text) <= 4000)%Z
      /\ truthy (get LANGUAGE_VOICES language) = true.
Proof.
  destruct (prepared_plain text language) as [_ He]. rewrite He.
  destruct (normalize_trimmed text) as [H1 H2].
  set (n := normalize_for_tts text) in *.
  unfold validateTTSParameters, limit_length.
  destruct (Z.ltb_spec 4000 (jslength n)) as [Hlong|Hshort].
  - cbn [isValid]. split.
    + intros H. exfalso.
      assert (Hl : (4000 < jslength (substring0 4000 n ++ lit "..."))%Z).
      { unfold jslength, substring0 in *. rewrite length_app, length_firstn.
        change (List.length (lit "...")) with 3%nat. lia. }
      apply Z.ltb_lt in Hl. rewrite Hl in H.
      unfold jslength_list in H. rewrite !length_app in H. simpl in H.
      apply Z.eqb_eq in H. lia.
    + intros (_ & Hle & _). lia.
  - cbn [isValid]. destruct (Z.ltb_spec 4000 (jslength n)) as [|_]; [lia|].
    destruct n as [|c n'] eqn:En.
    + split; [discriminate | intros (Hne & _); congruence].
    + rewrite <- En in *. rewrite (trim_fixed _ H1 H2).
      assert (Hz : (jslength n =? 0)%Z = false).
      { apply Z.eqb_neq. rewrite En. unfold jslength. simpl. lia. }
      rewrite Hz.
      destruct (truthy (get LANGUAGE_VOICES language)); simpl.
      * split; [intros _; repeat split; try lia; congruence | reflexivity].
      * split; [discriminate | intros (_ & _ & Hf); discriminate].
Qed.

Example cut_text_is_rejected :
  jslength (prepareTextForTTS (repeat 97 4001) (lit "english")) = 4003%Z
  /\ errors (validateTTSParameters
               (prepareTextForTTS (repeat 97 4001) (lit "english")) (lit "english"))
     = [lit "Text is too long for TTS (max 4000 characters)"].
Proof. split; vm_compute; reflexivity. Qed.

End SpeechProperties.

Module ExtractionProperties.

Import JsString JsStringFacts Exc FileProcessor.
Local Open Scope N_scope.











(** X14: the text [extractTextContent] returns has at most 1000
    characters, does not start with white space, has single spaces as its
    only white space, and, when shorter than 1000 characters, does not end
    with white space either. *)
Theorem extracted_text_bounded (slideContent : jsstring) :
  (jslength (extractTextContent slideContent) <= 1000)%Z
  /\ starts_with is_space (extractTextContent slideContent) = false
  /\ single_spaced is_space SPACE (extractTextContent slideContent)
  /\ ((jslength (extractTextContent slideContent) < 1000)%Z ->
      ends_with is_space (extractTextContent slideContent) = false).
Proof.
  unfold extractTextContent, substring0, jslength.
  set (t := trim (replace_runs is_space SPACE slideContent)).
  assert (Hs : single_spaced is_space SPACE t).
  { unfold t, trim, replace_runs.
    apply single_spaced_trimEnd, single_spaced_trimStart.
    apply replace_runs_from_single_spaced. reflexivity. }
  pose proof (firstn_le_length 1000 t). repeat split.
  - lia.
  - apply SpeechProperties.starts_with_firstn. apply trim_no_lead.
  - now apply SpeechProperties.single_spaced_firstn.
  - intros Hlt. rewrite length_firstn in Hlt.
    rewrite firstn_all2 by lia. apply trim_no_trail.
Qed.

End ExtractionProperties.

(* ===================================================================== *)
(** * Further properties of the upload route *)
(* ===================================================================== *)

Module RouteProperties.

Import JsString JsStringFacts Exc Upload StoreFacts PipelineFacts.
Local Open Scope Z_scope.

(** The slide numbers 1, 2, .. of [n] slides from index [i] on. *)
Definition numbers_from (i n : nat) : list Z :=
  map (fun j => Z.of_nat j + 1) (seq i n).

Lemma skeletons_from_maps slides : forall i,
  map Lecture.slideNumber (skeletons_from i slides) = numbers_from i (List.length slides)
  /\ map Lecture.content (skeletons_from i slides) = map FileProcessor.ex_content slides
  /\ map Lecture.imageUrl (skeletons_from i slides) = map FileProcessor.ex_imageUrl slides.
Proof.
  unfold numbers_from.
  induction slides as [|s rest IH]; intros i; simpl; auto.
  destruct (IH (S i)) as (H1 & H2 & H3). rewrite H1, H2, H3. auto.
Qed.

Lemma loop_outcome_maps w language todo : forall i pushed k,
  loop_outcome w language i todo = (Ok pushed, k) ->
  map Lecture.slideNumber pushed = numbers_from i (List.length todo)
  /\ map Lecture.content pushed = map FileProcessor.ex_content todo
  /\ map Lecture.imageUrl pushed = map FileProcessor.ex_imageUrl todo.
Proof.
  unfold numbers_from.
  induction todo as [|x rest IH]; intros i pushed k; simpl.
  - intros [= <- <-]. auto.
  - destruct (audio_of w language i x) as [audioUrl|e]; [|discriminate].
    destruct (loop_outcome w language (S i) rest) as [[pushed'|e] k'] eqn:Hl;
      [|discriminate].
    intros [= <- <-]. destruct (IH _ _ _ Hl) as (H1 & H2 & H3).
    simpl. rewrite H1, H2, H3. auto.
Qed.

Lemma run_completed w req location slides pushed k :
  s3_upload w = Ok location ->
  extract w req = Ok slides ->
  loop_outcome w (body_language req) 0 slides = (Ok pushed, k) ->
  run w req
  = (Ok pushed,
     ([stamped w 0 (accepted_update req); stamped w 1 (stored_update location);
        stamped w 2 (skeleton_update slides)]
        ++ progress_updates w (Z.of_nat (List.length slides)) 0 (List.length slides))
       ++ [stamped w (3 + List.length slides) (final_update w pushed)]).
Proof.
  intros H1 H2 H3.
  destruct (run_cases w req) as (r & us & -> & H).
  destruct H; congruence.
Qed.

(** The slides the lecture has after a run whose file was stored and
    extracted. *)
Lemma final_slides_after_extraction d w req location slides :
  s3_upload w = Ok location ->
  extract w req = Ok slides ->
  Lecture.slides (final d w req)
  = match fst (loop_outcome w (body_language req) 0 slides) with
    | Ok pushed => pushed
    | Throw _ => skeletons_from 0 slides
    end.
Proof.
  intros Hup Hex.
  destruct (loop_outcome w (body_language req) 0 slides) as [[pushed|e] k] eqn:Hl;
    cbn [fst]; unfold final, updates.
  - rewrite (run_completed w req Hup Hex Hl). cbn [snd].
    rewrite persisted_snoc. reflexivity.
  - rewrite (run_synthesis_failed w req Hup Hex Hl). cbn [snd].
    rewrite persisted_snoc, persisted_app.
    rewrite update_keeps by (repeat constructor).
    rewrite persisted_keeps
      by (apply progress_updates_keep; intros v; split; intros d'; reflexivity).
    reflexivity.
Qed.

(** X15: after a run whose file was stored and extracted, whether it
    completed or stopped at a failed synthesis, the persisted slides are
    numbered 1, 2, .. in their order, one per extracted slide, each with the
    content and the image of the extracted slide at its position. *)
Theorem persisted_slides_follow_extraction
        (d : Lecture.lecture) (w : world) (req : request)
        (location : jsstring) (slides : list FileProcessor.extracted) :
  s3_upload w = Ok location ->
  extract w req = Ok slides ->
  map Lecture.slideNumber (Lecture.slides (final d w req))
  = numbers_from 0 (List.length slides)
  /\ map Lecture.content (Lecture.slides (final d w req))
     = map FileProcessor.ex_content slides
  /\ map Lecture.imageUrl (Lecture.slides (final d w req))
     = map FileProcessor.ex_imageUrl slides.
Proof.
  intros Hup Hex. rewrite (final_slides_after_extraction d w req Hup Hex).
  destruct (loop_outcome w (body_language req) 0 slides) as [[pushed|e] k] eqn:Hl;
    cbn [fst].
  - eapply loop_outcome_maps; eauto.
  - apply skeletons_from_maps.
Qed.

Lemma persisted_slides_follow_extraction_witness :
  s3_upload scenario_d = Ok (lit "https://bucket.s3.amazonaws.com/lectures/1/cells")
  /\ extract scenario_d (upload_of "pdf") = Ok (slides_of_two_paragraphs scenario_d)
  /\ map Lecture.slideNumber
         (Lecture.slides (final fresh_lecture scenario_d (upload_of "pdf")))
     = [1; 2]
  /\ map Lecture.content
         (Lecture.slides (final fresh_lecture scenario_d (upload_of "pdf")))
     = map FileProcessor.ex_content (slides_of_two_paragraphs scenario_d)
  /\ map Lecture.imageUrl
         (Lecture.slides (final fresh_lecture scenario_d (upload_of "pdf")))
     = map FileProcessor.ex_imageUrl (slides_of_two_paragraphs scenario_d).
Proof.
  split; [reflexivity|]. split; [reflexivity|].
  exact (@persisted_slides_follow_extraction fresh_lecture scenario_d
           (upload_of "pdf") _ _ eq_refl eq_refl).
Defined.









(** X18: the lecture is [ready] after a run exactly when the response is
    the success response, and then the response lists the persisted slides
    and the persisted slide count is their number. *)
Theorem ready_iff_success (d : Lecture.lecture) (w : world) (req : request) :
  Lecture.status (final d w req) = Lecture.ready
  <-> response w req = Ok (Lecture.slides (final d w req))
      /\ Lecture.metadata_slideCount (final d w req)
         = Z.of_nat (List.length (Lecture.slides (final d w req))).
Proof.
  split.
  - intros Hs. destruct (ready_completed d w req Hs) as (ps & Hr).
    destruct (final_completed d w req Hr) as (_ & H2 & _ & _ & H5).
    rewrite H5, H2. auto.
  - intros [Hr _]. apply (final_completed d w req Hr).
Qed.

Lemma jseqb_neq a b : a <> b -> jseqb a b = false.
Proof.
  intros H. destruct (jseqb a b) eqn:E; auto.
  apply jseqb_eq in E. contradiction.
Qed.

(** X19: with the default list of allowed types the file filter lets
    through pptx and pdf files only, so a file of another type reaches the
    handler only when [ALLOWED_FILE_TYPES] is set and lists its type.  For
    such a file nothing is extracted and nothing is thrown: once the file is
    stored the run completes, and the lecture is [ready] with no slide and
    progress 10, 20, 40, 100. *)
Theorem other_file_type_gives_empty_lecture
        (d : Lecture.lecture) (w : world) (req : request) (location : jsstring)
        (env : option jsstring) :
  fileFilter env req = true ->
  s3_upload w = Ok location ->
  fileType req <> lit "pptx" ->
  fileType req <> lit "pdf" ->
  fileFilter None req = false
  /\ (exists types, env = Some types /\ types <> [])
  /\ response w req = Ok []
  /\ Lecture.status (final d w req) = Lecture.ready
  /\ Lecture.slides (final d w req) = []
  /\ map Lecture.processingProgress (Lecture.history d (updates w req))
     = [10; 20; 40; 100].
Proof.
  intros Hf Hup H1 H2.
  assert (Hdefault : fileFilter None req = false).
  { unfold fileFilter.
    change (allowedTypes None) with [lit "pptx"; lit "pdf"].
    cbn [existsb]. now rewrite (jseqb_neq H1), (jseqb_neq H2). }
  assert (Hex : extract w req = Ok []).
  { unfold extract. now rewrite (jseqb_neq H1), (jseqb_neq H2). }
  assert (Hl : loop_outcome w (body_language req) 0 [] = (Ok [], 0%nat))
    by reflexivity.
  pose proof (run_completed w req Hup Hex Hl) as Hrun.
  assert (Hr : response w req = Ok []) by (unfold response; now rewrite Hrun).
  destruct (final_completed d w req Hr) as (Hs & Hsl & _).
  split; [exact Hdefault|]. split.
  - destruct env as [[|c v]|].
    + change (fileFilter (Some []) req) with (fileFilter None req) in Hf. congruence.
    + exists (c :: v). split; [reflexivity | discriminate].
    + congruence.
  - repeat split; auto.
    unfold updates. rewrite Hrun. reflexivity.
Qed.

Lemma other_file_type_gives_empty_lecture_witness :
  fileFilter (Some (lit "pptx,pdf,docx")) (upload_of "docx") = true
  /\ s3_upload (working_world two_paragraphs)
     = Ok (lit "https://bucket.s3.amazonaws.com/lectures/1/cells")
  /\ fileType (upload_of "docx") <> lit "pptx"
  /\ fileType (upload_of "docx") <> lit "pdf"
  /\ fileFilter None (upload_of "docx") = false
  /\ response (working_world two_paragraphs) (upload_of "docx") = Ok []
  /\ Lecture.status (final fresh_lecture (working_world two_paragraphs) (upload_of "docx"))
     = Lecture.ready
  /\ Lecture.slides (final fresh_lecture (working_world two_paragraphs) (upload_of "docx"))
     = []
  /\ map Lecture.processingProgress
         (Lecture.history fresh_lecture
            (updates (working_world two_paragraphs) (upload_of "docx")))
     = [10; 20; 40; 100].
Proof.
  assert (H1 : fileType (upload_of "docx") <> lit "pptx") by discriminate.
  assert (H2 : fileType (upload_of "docx") <> lit "pdf") by discriminate.
  split; [reflexivity|].
  split; [reflexivity|]. split; [exact H1|]. split; [exact H2|].
  destruct (@other_file_type_gives_empty_lecture fresh_lecture
              (working_world two_paragraphs) (upload_of "docx") _
              (Some (lit "pptx,pdf,docx")) eq_refl eq_refl H1 H2)
    as (Hd & _ & Hrest).
  split; [exact Hd | exact Hrest].
Defined.

(** X20: a pptx upload never depends on the bytes of the file: when the
    file is stored and the one synthesis succeeds, the lecture is [ready]
    with exactly one slide, numbered 1, whose content is the fixed
    placeholder sentence, and the progress goes 10, 20, 40, 80, 100. *)
Theorem pptx_gives_the_placeholder_slide
        (d : Lecture.lecture) (w : world) (req : request) (location : jsstring) :
  s3_upload w = Ok location ->
  fileType req = lit "pptx" ->
  (forall voice input, exists audio, speech w 0 voice input = Ok audio) ->
  Lecture.status (final d w req) = Lecture.ready
  /\ map Lecture.slideNumber (Lecture.slides (final d w req)) = [1]
  /\ map Lecture.content (Lecture.slides (final d w req))
     = [lit "Slide content extracted from PPTX"]
  /\ map Lecture.processingProgress (Lecture.history d (updates w req))
     = [10; 20; 40; 80; 100].
Proof.
  intros Hup Ht Hs.
  set (x := {| FileProcessor.ex_content := lit "Slide content extracted from PPTX";
               FileProcessor.ex_imageUrl := render w (lit "Slide 1") 1 |}).
  assert (Hex : extract w req = Ok [x])
    by (unfold extract; rewrite Ht; reflexivity).
  destruct (Hs (TtsService.voice_of (body_language req))
               (TtsService.prepareTextForTTS
                  (script_of w (body_language req) 0 x) (body_language req)))
    as [audio Ha].
  assert (Hl : loop_outcome w (body_language req) 0 [x]
               = (Ok [processed_slide w (body_language req) 0 x audio], 1%nat)).
  { simpl. unfold audio_of, TtsService.generateSpeech. rewrite Ha. reflexivity. }
  pose proof (run_completed w req Hup Hex Hl) as Hrun.
  assert (Hr : response w req
               = Ok [processed_slide w (body_language req) 0 x audio])
    by (unfold response; now rewrite Hrun).
  destruct (final_completed d w req Hr) as (H1 & H2 & _).
  rewrite H2. repeat split; auto.
  unfold updates. rewrite Hrun. reflexivity.
Qed.

Lemma pptx_gives_the_placeholder_slide_witness :
  s3_upload (working_world []) = Ok (lit "https://bucket.s3.amazonaws.com/lectures/1/cells")
  /\ fileType (upload_of "pptx") = lit "pptx"
  /\ (forall voice input, exists audio, speech (working_world []) 0 voice input = Ok audio)
  /\ Lecture.status (final fresh_lecture (working_world []) (upload_of "pptx"))
     = Lecture.ready
  /\ map Lecture.slideNumber
         (Lecture.slides (final fresh_lecture (working_world []) (upload_of "pptx")))
     = [1]
  /\ map Lecture.content
         (Lecture.slides (final fresh_lecture (working_world []) (upload_of "pptx")))
     = [lit "Slide content extracted from PPTX"]
  /\ map Lecture.processingProgress
         (Lecture.history fresh_lecture (updates (working_world []) (upload_of "pptx")))
     = [10; 20; 40; 80; 100].
Proof.
  assert (Hs : forall (voice : JsObject.value) (input : jsstring),
             exists audio, speech (working_world []) 0 voice input = Ok audio)
    by (intros; eexists; reflexivity).
  split; [reflexivity|]. split; [reflexivity|]. split; [exact Hs|].
  exact (@pptx_gives_the_placeholder_slide fresh_lecture (working_world [])
           (upload_of "pptx") _ eq_refl eq_refl Hs).
Defined.

Lemma chain_last_ge l : forall lo, chain lo l -> lo <= last l lo.
Proof.
  induction l as [|a t IH]; intros lo; simpl chain; [simpl; lia|].
  intros [H1 H2]. rewrite last_cons. specialize (IH a H2). lia.
Qed.

(** X21: the error update leaves the progress alone, so after a failed run
    the persisted progress is the value that the last update before the
    exception set: 10 when the upload of the file threw, 20 when the
    extraction threw, and, when the synthesis threw after [k] slides were
    completed, 40 for [k = 0] and the progress value of slide [k - 1]
    otherwise.  It lies between 10 and 80: a lecture in [error] never shows
    progress 100 because of that run. *)
Theorem failed_run_progress (d : Lecture.lecture) (w : world) (req : request)
        (e : jsstring) :
  response w req = Throw e ->
  Lecture.processingProgress (final d w req)
  = Lecture.processingProgress
      (Lecture.persisted d (removelast (updates w req)))
  /\ Lecture.processingProgress (final d w req)
     = match s3_upload w with
       | Throw _ => 10
       | Ok _ =>
           match extract w req with
           | Throw _ => 20
           | Ok slides =>
               let n := List.length slides in
               let k := snd (loop_outcome w (body_language req) 0 slides) in
               last (map (fun j => progress_after j (Z.of_nat n)) (seq 0 k)) 40
           end
       end
  /\ 10 <= Lecture.processingProgress (final d w req) <= 80.
Proof.
  intros Hr.
  assert (Hsame : Lecture.processingProgress (final d w req)
                  = Lecture.processingProgress
                      (Lecture.persisted d (removelast (updates w req)))).
  { unfold final.
    destruct (run_updates w req) as (pre & u & -> & _ & Hu).
    rewrite Hr in Hu. subst u.
    rewrite removelast_last, persisted_snoc. reflexivity. }
  split; [exact Hsame|]. split.
  - rewrite Hsame. clear Hsame. revert Hr. unfold response, updates.
    destruct (run_cases w req) as (r & us & -> & H). cbn [fst snd].
    destruct H as [e0 H1|loc e0 H1 H2|loc slides e0 k H1 H2 H3|loc slides ps H1 H2 H3];
      intros Hr; try discriminate Hr.
    + rewrite H1, removelast_last. reflexivity.
    + rewrite H1, H2, removelast_last. reflexivity.
    + rewrite H1, H2, H3, removelast_last. cbn [snd]. cbv zeta.
      rewrite <- last_history, <- (last_map Lecture.processingProgress _ d).
      rewrite history_app, map_app, history_progress_updates.
      cbn [Lecture.history map app].
      change (last (?a :: ?b :: ?c :: ?l) ?x) with (last (c :: l) x).
      rewrite last_cons. f_equal.
  - unfold final.
    destruct (run_updates w req) as (pre & u & -> & Ho & Hu).
    rewrite Hr in Hu. subst u.
    destruct (Ho d) as (_ & p & ps & Hp & Hc & Hb).
    rewrite persisted_snoc.
    change (10 <= Lecture.processingProgress (Lecture.persisted d pre) <= 80).
    rewrite <- last_history.
    rewrite <- (last_map Lecture.processingProgress (Lecture.history d pre) d), Hp.
    rewrite (last_cons_default ps p (Lecture.processingProgress d) 10).
    split; [now apply chain_last_ge | apply last_bounded; [lia | exact Hb]].
Qed.

(** The speech provider throws for the second slide only. *)
Definition second_speech_fails : nat -> TtsService.synthesizer :=
  fun i _ _ =>
    match i with
    | 1%nat => Throw (lit "429 quota exceeded")
    | _ => Ok audio_location
    end.

Lemma failed_run_progress_witness :
  let w := with_speech (working_world two_paragraphs) second_speech_fails in
  response w (upload_of "pdf") = Throw (lit "Failed to generate speech")
  /\ map Lecture.processingProgress
         (Lecture.history fresh_lecture (updates w (upload_of "pdf")))
     = [10; 20; 40; 60; 60]
  /\ Lecture.processingProgress (final fresh_lecture w (upload_of "pdf")) = 60
  /\ 10 <= Lecture.processingProgress (final fresh_lecture w (upload_of "pdf")) <= 80.
Proof.
  intros w.
  split; [reflexivity|]. split; [reflexivity|].
  destruct (@failed_run_progress fresh_lecture w (upload_of "pdf")
              (lit "Failed to generate speech") eq_refl) as (_ & Hv & Hb).
  split; [exact Hv | exact Hb].
Defined.

(** X22: when the upload of the file or the extraction throws, the run
    writes no slides: the lecture keeps the slides, the total duration and
    the slide count it had before the run, next to its new status
    [error]. *)
Theorem early_failure_keeps_slides
        (d : Lecture.lecture) (w : world) (req : request) :
  (exists e, s3_upload w = Throw e) \/ (exists e, extract w req = Throw e) ->
  Lecture.status (final d w req) = Lecture.error
  /\ Lecture.slides (final d w req) = Lecture.slides d
  /\ Lecture.totalDuration (final d w req) = Lecture.totalDuration d
  /\ Lecture.metadata_slideCount (final d w req) = Lecture.metadata_slideCount d.
Proof.
  intros H. unfold final, updates.
  destruct (run_cases w req) as (r & us & -> & Hshape). cbn [snd].
  destruct Hshape as [e H1|loc e H1 H2|loc slides e k H1 H2 H3|loc slides ps H1 H2 H3].
  - repeat split.
  - repeat split.
  - destruct H as [[e' H]|[e' H]]; congruence.
  - destruct H as [[e' H]|[e' H]]; congruence.
Qed.

(** A lecture that was processed before: ready, with one slide. *)
Definition processed_lecture : Lecture.lecture :=
  final fresh_lecture (working_world []) (upload_of "pptx").

Lemma early_failure_keeps_slides_witness :
  ((exists e, s3_upload unreadable_pdf = Throw e)
   \/ (exists e, extract unreadable_pdf (upload_of "pdf") = Throw e))
  /\ Lecture.status (final processed_lecture unreadable_pdf (upload_of "pdf"))
     = Lecture.error
  /\ Lecture.slides (final processed_lecture unreadable_pdf (upload_of "pdf"))
     = Lecture.slides processed_lecture
  /\ Lecture.totalDuration (final processed_lecture unreadable_pdf (upload_of "pdf"))
     = Lecture.totalDuration processed_lecture
  /\ Lecture.metadata_slideCount (final processed_lecture unreadable_pdf (upload_of "pdf"))
     = Lecture.metadata_slideCount processed_lecture.
Proof.
  assert (H : (exists e, s3_upload unreadable_pdf = Throw e)
              \/ (exists e, extract unreadable_pdf (upload_of "pdf") = Throw e))
    by (right; eexists; reflexivity).
  split; [exact H|].
  exact (early_failure_keeps_slides processed_lecture unreadable_pdf
           (upload_of "pdf") H).
Defined.

Lemma try_block_keeps_errorMessage w req location slides pushed k m :
  Forall (Forall (keeps Lecture.errorMessage))
         (([stamped w 0 (accepted_update req); stamped w 1 (stored_update location);
        stamped w 2 (skeleton_update slides)]
             ++ progress_updates w (Z.of_nat (List.length slides)) 0 k)
            ++ [stamped w m (final_update w pushed)]).
Proof.
  apply Forall_app. split; [apply Forall_app; split|].
  - repeat constructor.
  - apply progress_updates_keep; intros v; split; intros d'; reflexivity.
  - repeat constructor.
Qed.

(** X23: a run that completes does not touch the error message: a lecture
    that failed before and is processed again ends [ready] with the message
    of the earlier failure still in place. *)
Theorem success_keeps_old_error_message
        (d : Lecture.lecture) (w : world) (req : request)
        (processedSlides : list Lecture.slide) :
  response w req = Ok processedSlides ->
  Lecture.status (final d w req) = Lecture.ready
  /\ Lecture.errorMessage (final d w req) = Lecture.errorMessage d.
Proof.
  intros Hr. split; [apply (final_completed d w req Hr)|].
  destruct (response_completed w req Hr) as (loc & slides & Hup & Hex & Hl).
  unfold final, updates. rewrite (run_completed w req Hup Hex Hl). cbn [snd].
  apply persisted_keeps, try_block_keeps_errorMessage.
Qed.

(** A lecture whose first run failed on an unreadable document. *)
Definition failed_lecture : Lecture.lecture :=
  final fresh_lecture unreadable_pdf (upload_of "pdf").

Lemma success_keeps_old_error_message_witness :
  response (working_world two_paragraphs) (upload_of "pdf")
  = Ok (Lecture.slides
          (final failed_lecture (working_world two_paragraphs) (upload_of "pdf")))
  /\ Lecture.status (final failed_lecture (working_world two_paragraphs) (upload_of "pdf"))
     = Lecture.ready
  /\ Lecture.errorMessage
       (final failed_lecture (working_world two_paragraphs) (upload_of "pdf"))
     = lit "Failed to process PDF file".
Proof.
  assert (Hr : response (working_world two_paragraphs) (upload_of "pdf")
               = Ok (Lecture.slides
                       (final failed_lecture (working_world two_paragraphs)
                          (upload_of "pdf")))) by reflexivity.
  split; [exact Hr|].
  exact (@success_keeps_old_error_message failed_lecture
           (working_world two_paragraphs) (upload_of "pdf") _ Hr).
Defined.

(** X24: the progress values a completed run persists for [n] slides are
    10, 20, 40, then the rounded value of 40 + 40 (j + 1) / n after each
    slide, then 100; the value after the last slide is exactly 80. *)
Theorem completed_run_progress_values
        (d : Lecture.lecture) (w : world) (req : request)
        (processedSlides : list Lecture.slide) :
  response w req = Ok processedSlides ->
  let n := List.length processedSlides in
  map Lecture.processingProgress (Lecture.history d (updates w req))
  = [10; 20; 40]
      ++ map (fun j => progress_after j (Z.of_nat n)) (seq 0 n) ++ [100]
  /\ (n <> 0%nat -> progress_after (n - 1) (Z.of_nat n) = 80).
Proof.
  intros Hr n.
  destruct (response_completed w req Hr) as (loc & slides & Hup & Hex & Hl).
  pose proof (loop_outcome_count w (body_language req) slides 0%nat) as Hc.
  rewrite Hl in Hc. destruct Hc as [_ Hlen]. fold n in Hlen.
  split.
  - unfold updates. rewrite (run_completed w req Hup Hex Hl). cbn [snd].
    rewrite history_snoc, map_app, history_app, map_app.
    rewrite history_progress_updates, <- Hlen, <- app_assoc. reflexivity.
  - intros Hn. unfold progress_after, round_ratio.
    replace (2 * (40 * Z.of_nat n + 40 * (Z.of_nat (n - 1) + 1)) + Z.of_nat n)
      with (80 * (2 * Z.of_nat n) + Z.of_nat n) by lia.
    rewrite Z.div_add_l by lia.
    rewrite Z.div_small by lia. lia.
Qed.

Lemma completed_run_progress_values_witness :
  response (working_world two_paragraphs) (upload_of "pdf")
  = Ok (Lecture.slides
          (final fresh_lecture (working_world two_paragraphs) (upload_of "pdf")))
  /\ map Lecture.processingProgress
         (Lecture.history fresh_lecture
            (updates (working_world two_paragraphs) (upload_of "pdf")))
     = [10; 20; 40; 60; 80; 100].
Proof.
  assert (Hr : response (working_world two_paragraphs) (upload_of "pdf")
               = Ok (Lecture.slides
                       (final fresh_lecture (working_world two_paragraphs)
                          (upload_of "pdf")))) by reflexivity.
  split; [exact Hr|].
  exact (proj1 (@completed_run_progress_values fresh_lecture
                  (working_world two_paragraphs) (upload_of "pdf") _ Hr)).
Defined.

(** *** The object removed by the delete route *)

Lemma split_on_nonempty sep s : split_on sep s <> [].
Proof.
  destruct s as [|c s]; simpl; [discriminate|].
  destruct (c =? sep)%N; [discriminate|].
  destruct (split_on sep s); discriminate.
Qed.

Lemma split_on_app sep a b :
  split_on sep (a ++ sep :: b) = split_on sep a ++ split_on sep b.
Proof.
  induction a as [|c a IH]; simpl.
  - now rewrite N.eqb_refl.
  - rewrite IH. destruct (c =? sep)%N; [reflexivity|].
    pose proof (split_on_nonempty sep a).
    destruct (split_on sep a); [congruence | reflexivity].
Qed.

Lemma split_on_whole sep s :
  Forall (fun c => c <> sep) s -> split_on sep s = [s].
Proof.
  induction 1 as [|c s Hc _ IH]; simpl; auto.
  apply N.eqb_neq in Hc. rewrite Hc, IH. reflexivity.
Qed.

Lemma slice_last_two_app {A} (l : list A) a b :
  slice_last_two (l ++ [a; b]) = [a; b].
Proof.
  unfold slice_last_two. rewrite length_app. simpl List.length.
  replace (List.length l + 2 - 2)%nat with (List.length l + 0)%nat by lia.
  rewrite skipn_app, Nat.add_0_r, skipn_all.
  replace (List.length l - List.length l)%nat with 0%nat by lia. reflexivity.
Qed.

Lemma delete_key_of_address base lectureId fileName :
  Forall (fun c => c <> SLASH) lectureId ->
  Forall (fun c => c <> SLASH) fileName ->
  delete_key (base ++ SLASH :: lectureId ++ SLASH :: fileName)
  = upload_key lectureId fileName.
Proof.
  intros Hi Hf. unfold delete_key, upload_key.
  rewrite split_on_app, split_on_app.
  rewrite (split_on_whole Hi), (split_on_whole Hf).
  change ([lectureId] ++ [fileName]) with [lectureId; fileName].
  rewrite slice_last_two_app. reflexivity.
Qed.

Lemma final_fileUrl d w req location :
  s3_upload w = Ok location ->
  Lecture.originalFile_fileUrl (final d w req) = location.
Proof.
  intros Hup. unfold final, updates.
  destruct (run_cases w req) as (r & us & -> & Hshape). cbn [snd].
  destruct Hshape as [e H1|loc e H1 H2|loc slides e k H1 H2 H3|loc slides ps H1 H2 H3];
    try congruence;
    assert (loc = location) by congruence; subst loc.
  - reflexivity.
  - rewrite persisted_snoc, persisted_app.
    rewrite update_keeps by (repeat constructor).
    rewrite persisted_keeps
      by (apply progress_updates_keep; intros v; split; intros d'; reflexivity).
    reflexivity.
  - rewrite persisted_snoc, persisted_app.
    rewrite update_keeps by (repeat constructor).
    rewrite persisted_keeps
      by (apply progress_updates_keep; intros v; split; intros d'; reflexivity).
    reflexivity.
Qed.

(** X25: when the address returned for the uploaded file ends with the
    lecture id and the file name separated by slashes, and neither contains
    a slash, the key the delete route computes from the persisted address is
    the key the upload route stored the file under: the delete route removes
    the object that the run uploaded. *)
Theorem delete_removes_the_uploaded_object
        (d : Lecture.lecture) (w : world) (req : request)
        (base lectureId fileName : jsstring) :
  s3_upload w = Ok (base ++ SLASH :: lectureId ++ SLASH :: fileName) ->
  Forall (fun c => c <> SLASH) lectureId ->
  Forall (fun c => c <> SLASH) fileName ->
  deleted_object (final d w req) = Some (upload_key lectureId fileName).
Proof.
  intros Hup Hi Hf. unfold deleted_object.
  rewrite (final_fileUrl d w req Hup).
  rewrite (delete_key_of_address base Hi Hf).
  destruct base; reflexivity.
Qed.

(** The storage answers with an address under the bucket host. *)
Definition stored_at_bucket : world :=
  {| s3_upload :=
       Ok (lit "https://bucket.s3.amazonaws.com/lectures"
             ++ SLASH :: lit "64b7f0c2" ++ SLASH :: lit "1700000000000-cells.pdf");
     pdf_parse := Ok two_paragraphs;
     render := fun _ _ => lit "https://bucket.s3.amazonaws.com/slides/slide.png";
     chat := fun _ => AiService.Content good_script;
     speech := fun _ _ _ => Ok audio_location;
     elapsed := 5000;
     now := fun k => 1700000000000 + 1000 * Z.of_nat k |}.

Lemma delete_removes_the_uploaded_object_witness :
  deleted_object (final fresh_lecture stored_at_bucket (upload_of "pdf"))
  = Some (lit "lectures/64b7f0c2/1700000000000-cells.pdf").
Proof.
  apply (@delete_removes_the_uploaded_object fresh_lecture stored_at_bucket
           (upload_of "pdf") (lit "https://bucket.s3.amazonaws.com/lectures")
           (lit "64b7f0c2") (lit "1700000000000-cells.pdf")).
  - reflexivity.
  - repeat constructor; discriminate.
  - repeat constructor; discriminate.
Defined.

End RouteProperties.
